(** * tcp_blocking: length-prefixed blocking TCP transport

    A shallow embedding of [src/distributed/tcp_blocking.py]: the two
    transfer loops [send_all] and [recv_all], the framing done by
    [TCPServer] and [TCPClient], and the part of the Python socket API
    they call.  Python integers are [Z], [bytes] objects are lists of
    [Byte.byte], exceptions are values of [exn], and every operation
    returns its outcome together with the socket as the call left it.
    The tensor helpers are embedded with [torch] as a parameter;
    [TCPClient.register] is left out. *)

From Equations Require Import Equations.
From Stdlib Require Import ZArith List Lia Bool String.
From Stdlib.Strings Require Import Byte.
Import ListNotations.

Local Open Scope Z_scope.

(** ** Bytes and Python's [int.to_bytes] / [int.from_bytes] *)

Definition bytes := list byte.

(** [len(b)] *)
Definition len {A : Type} (l : list A) : Z := Z.of_nat (List.length l).

(** [b[i:]] for [i >= 0] *)
Definition slice_from {A : Type} (l : list A) (i : Z) : list A :=
  skipn (Z.to_nat i) l.

Definition Z_of_byte (b : byte) : Z := Z.of_N (Byte.to_N b).

Definition byte_of_Z (z : Z) : byte :=
  match Byte.of_N (Z.to_N (z mod 256)) with
  | Some b => b
  | None => x00
  end.

(** The [w] low-order base-256 digits of [n], most significant first. *)
Fixpoint be_bytes (w : nat) (n : Z) : bytes :=
  match w with
  | O => []
  | S w' => be_bytes w' (n / 256) ++ [byte_of_Z (n mod 256)]
  end.

(** Exceptions the module can raise, by Python class. *)
Inductive errno : Set := EBADF | EINVAL | ENOTCONN | EPIPE.

Inductive exn : Set :=
| RuntimeError (msg : string)
| OverflowError (msg : string)
| ValueError (msg : string)
| AttributeError (msg : string)
| OSError (code : errno).

(** What a blocking call does: it returns, it raises, or it never comes
    back. *)
Inductive outcome (A : Type) : Type :=
| Done (a : A)
| Raised (e : exn)
| Blocked.
Arguments Done {A} a.
Arguments Raised {A} e.
Arguments Blocked {A}.

(** [n.to_bytes(length, 'big')] (unsigned), for a [length] that a C
    [ssize_t] holds and that can be allocated; the properties that name
    the exception raised keep to such widths. *)
Definition int_to_bytes (n length : Z) : outcome bytes :=
  if length <? 0 then
    Raised (ValueError "length argument must be non-negative")
  else if n <? 0 then
    Raised (OverflowError "can't convert negative int to unsigned")
  else if n <? 256 ^ length then
    Done (be_bytes (Z.to_nat length) n)
  else
    Raised (OverflowError "int too big to convert").

(** [int.from_bytes(b, 'big')] (unsigned). *)
Definition int_from_bytes (b : bytes) : Z :=
  fold_left (fun acc x => acc * 256 + Z_of_byte x) b 0.

(** ** The socket object

    A socket carries its own future: the bytes the peer puts on the wire
    ([sk_rx], followed by end-of-stream when [sk_rx_eof]), and how the
    transport fragments the coming calls ([sk_rx_plan], [sk_tx_plan]: one
    entry per call, the number of bytes the transport is ready to hand
    over or to take; once a plan is used up the transport moves as much
    as the call asks for).  [sk_tx] is what the transport has accepted so
    far and [sk_log] the calls that went through, oldest first.

    The model covers a connection that works or is closed in an orderly
    way: [send] returns a count (zero included), [recv] returns a chunk,
    [b''] after the peer's close, or waits.  A reset by the peer, a full
    send buffer, and a [bind] or [listen] refused for its address, port
    or backlog are outside it. *)

Definition address := (string * Z)%type.

Record peer : Type := mkPeer {
  p_addr : address;
  p_rx : bytes;
  p_rx_eof : bool;
  p_rx_plan : list Z;
  p_tx_plan : list Z
}.

Inductive sock_state : Type :=
| Fresh
| Bound
| Listening (backlog : Z)
| Connected
| Closed.

Inductive event : Type :=
| EvSend (data : bytes) (accepted : Z)
| EvRecv (bufsize : Z) (chunk : bytes)
| EvBind (a : address)
| EvListen (backlog : Z)
| EvAccept (a : address)
| EvClose.

Record socket : Type := mkSocket {
  sk_state : sock_state;
  sk_remote : option address;
  sk_rx : bytes;
  sk_rx_eof : bool;
  sk_rx_plan : list Z;
  sk_tx : bytes;
  sk_tx_plan : list Z;
  sk_pending : list peer;
  sk_log : list event
}.

(** [socket.socket(AF_INET, SOCK_STREAM)] *)
Definition socket_new : socket :=
  mkSocket Fresh None [] false [] [] [] [] [].

(** [sock.send(data)]: the number of bytes the transport took. *)
Definition socket_send (s : socket) (data : bytes) : outcome Z * socket :=
  match sk_state s with
  | Closed => (Raised (OSError EBADF), s)
  | Connected =>
      let k := match sk_tx_plan s with
               | [] => len data
               | q :: _ => Z.max 0 (Z.min q (len data))
               end in
      (Done k,
       mkSocket Connected (sk_remote s) (sk_rx s) (sk_rx_eof s) (sk_rx_plan s)
                (sk_tx s ++ firstn (Z.to_nat k) data) (tl (sk_tx_plan s))
                (sk_pending s) (sk_log s ++ [EvSend data k]))
  | _ => (Raised (OSError EPIPE), s)
  end.

(** [sock.recv(bufsize)]: at least one byte and at most [bufsize] of what
    the peer sent; [b''] once the peer has closed and everything was read;
    no return while the stream is open and empty. *)
Definition socket_recv (s : socket) (bufsize : Z) : outcome bytes * socket :=
  match sk_state s with
  | Closed => (Raised (OSError EBADF), s)
  | Connected =>
      if bufsize <? 0 then (Raised (ValueError "negative buffersize in recv"), s)
      else
        match sk_rx s with
        | [] =>
            if sk_rx_eof s then
              (Done [],
               mkSocket Connected (sk_remote s) [] true (tl (sk_rx_plan s))
                        (sk_tx s) (sk_tx_plan s) (sk_pending s)
                        (sk_log s ++ [EvRecv bufsize []]))
            else (Blocked, s)
        | _ :: _ =>
            let avail := Z.min bufsize (len (sk_rx s)) in
            let k := match sk_rx_plan s with
                     | [] => avail
                     | q :: _ => Z.min avail (Z.max 1 q)
                     end in
            let chunk := firstn (Z.to_nat k) (sk_rx s) in
            (Done chunk,
             mkSocket Connected (sk_remote s) (skipn (Z.to_nat k) (sk_rx s))
                      (sk_rx_eof s) (tl (sk_rx_plan s))
                      (sk_tx s) (sk_tx_plan s) (sk_pending s)
                      (sk_log s ++ [EvRecv bufsize chunk]))
        end
  | _ => (Raised (OSError ENOTCONN), s)
  end.

(** [sock.close()]: closing twice is a no-op. *)
Definition socket_close (s : socket) : outcome unit * socket :=
  match sk_state s with
  | Closed => (Done tt, s)
  | _ =>
      (Done tt,
       mkSocket Closed (sk_remote s) (sk_rx s) (sk_rx_eof s) (sk_rx_plan s)
                (sk_tx s) (sk_tx_plan s) (sk_pending s)
                (sk_log s ++ [EvClose]))
  end.

(** [sock.bind(addr)]: only a socket that was never bound can be bound. *)
Definition socket_bind (s : socket) (a : address) : outcome unit * socket :=
  match sk_state s with
  | Closed => (Raised (OSError EBADF), s)
  | Fresh =>
      (Done tt,
       mkSocket Bound (sk_remote s) (sk_rx s) (sk_rx_eof s) (sk_rx_plan s)
                (sk_tx s) (sk_tx_plan s) (sk_pending s)
                (sk_log s ++ [EvBind a]))
  | _ => (Raised (OSError EINVAL), s)
  end.

(** [sock.listen(backlog)] *)
Definition socket_listen (s : socket) (backlog : Z) : outcome unit * socket :=
  match sk_state s with
  | Closed => (Raised (OSError EBADF), s)
  | Connected => (Raised (OSError EINVAL), s)
  | _ =>
      (Done tt,
       mkSocket (Listening backlog) (sk_remote s) (sk_rx s) (sk_rx_eof s)
                (sk_rx_plan s) (sk_tx s) (sk_tx_plan s) (sk_pending s)
                (sk_log s ++ [EvListen backlog]))
  end.

(** [sock.accept()]: hands out the oldest pending connection as a new
    connected socket, with the peer's address. *)
Definition socket_accept (s : socket)
  : outcome (socket * address) * socket :=
  match sk_state s with
  | Closed => (Raised (OSError EBADF), s)
  | Listening b =>
      match sk_pending s with
      | [] => (Blocked, s)
      | p :: rest =>
          (Done (mkSocket Connected (Some (p_addr p)) (p_rx p) (p_rx_eof p)
                          (p_rx_plan p) [] (p_tx_plan p) [] [],
                 p_addr p),
           mkSocket (Listening b) (sk_remote s) (sk_rx s) (sk_rx_eof s)
                    (sk_rx_plan s) (sk_tx s) (sk_tx_plan s) rest
                    (sk_log s ++ [EvAccept (p_addr p)]))
      end
  | _ => (Raised (OSError EINVAL), s)
  end.

(** A remote peer tries to connect to the address of [s]: while [s]
    listens and its queue has room the attempt waits in the queue,
    otherwise it is turned away and leaves no trace.  (The queue of a
    socket that does not listen yet, like its [sk_rx], is its future:
    the peers that will have connected by the time [accept] is called.) *)
Definition incoming (s : socket) (p : peer) : socket :=
  match sk_state s with
  | Listening b =>
      if len (sk_pending s) <? Z.max b 1 then
        mkSocket (Listening b) (sk_remote s) (sk_rx s) (sk_rx_eof s)
                 (sk_rx_plan s) (sk_tx s) (sk_tx_plan s)
                 (sk_pending s ++ [p]) (sk_log s)
      else s
  | _ => s
  end.

(** ** The transfer loops *)

Definition inspect {A : Type} (a : A) : {b : A | a = b} :=
  exist _ a eq_refl.

(** [send_all(sock, data)].  The loop state is [total_sent]; [length] is
    [len(data)].  A call that took no byte ends the loop with the
    [RuntimeError], every other call moves [total_sent] forward, which
    is why the loop is well founded. *)
Equations? send_all_loop (sock : socket) (data : bytes) (length total_sent : Z)
  : outcome unit * socket by wf (Z.to_nat (length - total_sent)) lt :=
send_all_loop sock data length total_sent with Z_lt_dec total_sent length := {
  | right _ := (Done tt, sock);
  | left _ with inspect (socket_send sock (slice_from data total_sent)) := {
    | exist _ (Done sent, sock') _ with Z.eq_dec sent 0 := {
      | left _ :=
          (Raised (RuntimeError "Socket connection broken during send"), sock');
      | right _ := send_all_loop sock' data length (total_sent + sent) };
    | exist _ (Raised e, sock') _ := (Raised e, sock');
    | exist _ (Blocked, sock') _ := (Blocked, sock') } }.
Proof.
  assert (0 <= sent).
  { unfold socket_send in e.
    destruct (sk_state sock); try discriminate.
    destruct (sk_tx_plan sock); inversion e; unfold len; lia. }
  lia.
Qed.

Definition send_all (sock : socket) (data : bytes) : outcome unit * socket :=
  send_all_loop sock data (len data) 0.

(** [recv_all(sock, size)].  The loop state is [chunks] and [bytes_recd];
    an empty chunk ends the loop with the [RuntimeError]. *)
Equations? recv_all_loop (sock : socket) (size : Z) (chunks : list bytes)
  (bytes_recd : Z)
  : outcome bytes * socket by wf (Z.to_nat (size - bytes_recd)) lt :=
recv_all_loop sock size chunks bytes_recd with Z_lt_dec bytes_recd size := {
  | right _ := (Done (List.concat chunks), sock);
  | left _ with inspect (socket_recv sock (Z.min (size - bytes_recd) 2048)) := {
    | exist _ (Done [], sock') _ :=
        (Raised (RuntimeError "Socket connection broken during recv"), sock');
    | exist _ (Done (b :: chunk), sock') _ :=
        recv_all_loop sock' size (chunks ++ [b :: chunk])
                      (bytes_recd + len (b :: chunk));
    | exist _ (Raised e, sock') _ := (Raised e, sock');
    | exist _ (Blocked, sock') _ := (Blocked, sock') } }.
Proof.
  unfold len. simpl List.length. lia.
Qed.

Definition recv_all (sock : socket) (size : Z) : outcome bytes * socket :=
  recv_all_loop sock size [] 0.

(** ** Calls in sequence: the outcome of the first decides whether the
    second runs; the state is threaded through either way. *)

Definition bind {S A B : Type} (m : S -> outcome A * S)
  (k : A -> S -> outcome B * S) : S -> outcome B * S :=
  fun s =>
    match m s with
    | (Done a, s') => k a s'
    | (Raised e, s') => (Raised e, s')
    | (Blocked, s') => (Blocked, s')
    end.

Definition pure {S A : Type} (r : outcome A) : S -> outcome A * S :=
  fun s => (r, s).

Notation "x <- m ;; k" := (bind m (fun x => k))
  (at level 61, m at next level, right associativity).
Notation "m ;;; k" := (bind m (fun _ => k))
  (at level 61, right associativity).

(** Python's defaults for keyword arguments left out by the caller. *)
Definition default {A : Type} (d : A) (o : option A) : A :=
  match o with Some a => a | None => d end.

(** ** class TCPServer *)
Module TCPServer.

Record t : Type := mk {
  host : string;
  port : Z;
  backlog : Z;
  prefix_size : Z;
  sock : socket;
  conn : option socket;
  addr : option address
}.

Definition set_sock (self : t) (s : socket) : t :=
  mk (host self) (port self) (backlog self) (prefix_size self)
     s (conn self) (addr self).

Definition set_conn (self : t) (c : option socket) (a : option address) : t :=
  mk (host self) (port self) (backlog self) (prefix_size self)
     (sock self) c a.

(** A call on [self.sock]. *)
Definition on_sock {A : Type} (m : socket -> outcome A * socket)
  : t -> outcome A * t :=
  fun self => let (r, s') := m (sock self) in (r, set_sock self s').

(** A call on [self.conn], which holds a socket once [register] has
    returned and [None] before. *)
Definition on_conn {A : Type} (m : socket -> outcome A * socket)
  (none : outcome A) : t -> outcome A * t :=
  fun self =>
    match conn self with
    | Some c => let (r, c') := m c in (r, set_conn self (Some c') (addr self))
    | None => (none, self)
    end.

(** [__init__(self, host, port, backlog=4, prefix_size=1)] *)
Definition init (host : string) (port : Z) (backlog prefix_size : option Z)
  : t :=
  mk host port (default 4 backlog) (default 1 prefix_size)
     socket_new None None.

(** [register(self)] *)
Definition register : t -> outcome unit * t :=
  fun self =>
    (on_sock (fun s => socket_bind s (host self, port self)) ;;;
     on_sock (fun s => socket_listen s (backlog self)) ;;;
     ca <- on_sock socket_accept ;;
     fun self' => (Done tt, set_conn self' (Some (fst ca)) (Some (snd ca))))
    self.

(** [send_all(self.conn, buf)]: with [self.conn] still [None] the first
    [sock.send] is an attribute error, and an empty buffer never gets
    that far. *)
Definition conn_send_all (buf : bytes) : t -> outcome unit * t :=
  on_conn (fun c => send_all c buf)
    (if 0 <? len buf
     then Raised (AttributeError "'NoneType' object has no attribute 'send'")
     else Done tt).

(** [recv_all(self.conn, size)], likewise. *)
Definition conn_recv_all (size : Z) : t -> outcome bytes * t :=
  on_conn (fun c => recv_all c size)
    (if 0 <? size
     then Raised (AttributeError "'NoneType' object has no attribute 'recv'")
     else Done []).

(** [send(self, data)] *)
Definition send (self : t) (data : bytes) : outcome unit * t :=
  (prefix <- pure (int_to_bytes (len data) (prefix_size self)) ;;
   conn_send_all (prefix ++ data)) self.

(** [recv(self)] *)
Definition recv (self : t) : outcome bytes * t :=
  (raw_len <- conn_recv_all (prefix_size self) ;;
   let size := int_from_bytes raw_len in
   conn_recv_all size) self.

(** [close(self)]: a socket object is always truthy, [None] is not. *)
Definition close (self : t) : outcome unit * t :=
  ((match conn self with
    | Some _ => on_conn socket_close (Done tt)
    | None => pure (Done tt)
    end) ;;;
   on_sock socket_close) self.

End TCPServer.

(** ** class TCPClient *)
Module TCPClient.

Record t : Type := mk {
  host : string;
  port : Z;
  prefix_size : Z;
  sock : socket
}.

Definition set_sock (self : t) (s : socket) : t :=
  mk (host self) (port self) (prefix_size self) s.

Definition on_sock {A : Type} (m : socket -> outcome A * socket)
  : t -> outcome A * t :=
  fun self => let (r, s') := m (sock self) in (r, set_sock self s').

(** [__init__(self, host, port, prefix_size=1)] *)
Definition init (host : string) (port : Z) (prefix_size : option Z) : t :=
  mk host port (default 1 prefix_size) socket_new.

(** [send(self, data)] *)
Definition send (self : t) (data : bytes) : outcome unit * t :=
  (prefix <- pure (int_to_bytes (len data) (prefix_size self)) ;;
   on_sock (fun s => send_all s (prefix ++ data))) self.

(** [recv(self)] *)
Definition recv (self : t) : outcome bytes * t :=
  (raw_len <- on_sock (fun s => recv_all s (prefix_size self)) ;;
   let size := int_from_bytes raw_len in
   on_sock (fun s => recv_all s size)) self.

(** [close(self)] *)
Definition close (self : t) : outcome unit * t :=
  on_sock socket_close self.

End TCPClient.

(** ** A framed channel, from either side

    The two classes frame messages over their stream socket in the same
    way: [self.conn] on the server side, [self.sock] on the client
    side. *)
Inductive channel : Type :=
| ServerSide (s : TCPServer.t)
| ClientSide (c : TCPClient.t).

Definition chan_prefix_size (ch : channel) : Z :=
  match ch with
  | ServerSide s => TCPServer.prefix_size s
  | ClientSide c => TCPClient.prefix_size c
  end.

Definition chan_stream (ch : channel) : option socket :=
  match ch with
  | ServerSide s => TCPServer.conn s
  | ClientSide c => Some (TCPClient.sock c)
  end.

Definition chan_with_stream (ch : channel) (c : socket) : channel :=
  match ch with
  | ServerSide s => ServerSide (TCPServer.set_conn s (Some c) (TCPServer.addr s))
  | ClientSide cl => ClientSide (TCPClient.set_sock cl c)
  end.

Definition chan_send (ch : channel) (data : bytes) : outcome unit * channel :=
  match ch with
  | ServerSide s => let (r, s') := TCPServer.send s data in (r, ServerSide s')
  | ClientSide c => let (r, c') := TCPClient.send c data in (r, ClientSide c')
  end.

Definition chan_recv (ch : channel) : outcome bytes * channel :=
  match ch with
  | ServerSide s => let (r, s') := TCPServer.recv s in (r, ServerSide s')
  | ClientSide c => let (r, c') := TCPClient.recv c in (r, ClientSide c')
  end.

Definition chan_close (ch : channel) : outcome unit * channel :=
  match ch with
  | ServerSide s => let (r, s') := TCPServer.close s in (r, ServerSide s')
  | ClientSide c => let (r, c') := TCPClient.close c in (r, ClientSide c')
  end.

(** ** The wire between two endpoints

    What the transport accepted from the sender arrives, in order, at the
    receiving socket of the same connection. *)
Definition sent_since (before after : socket) : bytes :=
  skipn (List.length (sk_tx before)) (sk_tx after).

Definition deliver (data : bytes) (receiver : socket) : socket :=
  mkSocket (sk_state receiver) (sk_remote receiver)
           (sk_rx receiver ++ data) (sk_rx_eof receiver)
           (sk_rx_plan receiver) (sk_tx receiver) (sk_tx_plan receiver)
           (sk_pending receiver) (sk_log receiver).

(** ** A server over time

    What can happen to a [TCPServer] object: a remote peer tries to
    connect to its address, or the program calls one of its methods.  A
    call that raises or blocks leaves the object as the call left it. *)
Inductive action : Type :=
| PeerConnects (p : peer)
| CallRegister
| CallSend (data : bytes)
| CallRecv
| CallClose.

Definition step (self : TCPServer.t) (a : action) : TCPServer.t :=
  match a with
  | PeerConnects p =>
      TCPServer.set_sock self (incoming (TCPServer.sock self) p)
  | CallRegister => snd (TCPServer.register self)
  | CallSend data => snd (TCPServer.send self data)
  | CallRecv => snd (TCPServer.recv self)
  | CallClose => snd (TCPServer.close self)
  end.

Definition run (self : TCPServer.t) (acts : list action) : TCPServer.t :=
  fold_left step acts self.

(** The connections a listening socket has handed out so far. *)
Definition accepted (s : socket) : list address :=
  flat_map (fun ev => match ev with EvAccept a => [a] | _ => [] end)
           (sk_log s).

(** ** What a transfer loop asked of the socket

    A run of [recv_all] is described by its [sock.recv] calls, oldest
    first: the size asked for and the chunk returned.  [reads_bounded]
    says that each call asked for the bytes still missing, capped at
    2048. *)
Fixpoint reads_bounded (missing : Z) (calls : list (Z * bytes)) : Prop :=
  match calls with
  | [] => True
  | (bufsize, chunk) :: rest =>
      bufsize = Z.min missing 2048 /\
      reads_bounded (missing - len chunk) rest
  end.

Definition recv_events (calls : list (Z * bytes)) : list event :=
  map (fun c => EvRecv (fst c) (snd c)) calls.

Definition received (calls : list (Z * bytes)) : bytes :=
  List.concat (map snd calls).

(** A run of [send_all], by its [sock.send] calls: the buffer passed and
    the count returned.  [writes_follow] says that each call was passed
    the suffix of [data] not yet taken. *)
Fixpoint writes_follow (data : bytes) (total_sent : Z)
  (calls : list (bytes * Z)) : Prop :=
  match calls with
  | [] => True
  | (buf, sent) :: rest =>
      buf = slice_from data total_sent /\
      0 <= sent <= len buf /\
      writes_follow data (total_sent + sent) rest
  end.

Definition send_events (calls : list (bytes * Z)) : list event :=
  map (fun c => EvSend (fst c) (snd c)) calls.

Definition taken (calls : list (bytes * Z)) : Z :=
  fold_right Z.add 0 (map snd calls).

(** The two errors of the transfer loops. *)
Definition broken_recv : exn :=
  RuntimeError "Socket connection broken during recv".

Definition broken_send : exn :=
  RuntimeError "Socket connection broken during send".

(** The error a socket call raises on a closed socket, which is how a
    closed endpoint tells its caller. *)
Definition ChannelClosed : exn := OSError EBADF.

(** The peer of [self.conn], if there is a connection. *)
Definition conn_remote (self : TCPServer.t) : option (option address) :=
  option_map sk_remote (TCPServer.conn self).

(** The peers that tried to connect during a run. *)
Definition attempts (acts : list action) : list peer :=
  flat_map (fun a => match a with PeerConnects p => [p] | _ => [] end) acts.

(** The server holds the connection of the peer at [a0], its listening
    socket has handed out the connections [served] and no longer is a
    socket that [bind] accepts. *)
Definition consumed (a0 : address) (served : list address)
  (self : TCPServer.t) : Prop :=
  (exists c, TCPServer.conn self = Some c /\ sk_remote c = Some a0) /\
  TCPServer.addr self = Some a0 /\
  accepted (TCPServer.sock self) = served /\
  (sk_state (TCPServer.sock self) = Closed \/
   exists b, sk_state (TCPServer.sock self) = Listening b).

(** An endpoint all of whose sockets are closed. *)
Definition chan_closed (ch : channel) : Prop :=
  match ch with
  | ServerSide s =>
      sk_state (TCPServer.sock s) = Closed /\
      exists c, TCPServer.conn s = Some c /\ sk_state c = Closed
  | ClientSide c => sk_state (TCPClient.sock c) = Closed
  end.

(** ** Sample sockets and endpoints *)

(** A connected socket whose peer sent [rx] and then closed or not, with
    the given fragmentation plans. *)
Definition connected (rx : bytes) (eof : bool) (rx_plan tx_plan : list Z)
  : socket :=
  mkSocket Connected None rx eof rx_plan [] tx_plan [] [].

Definition demo_host : string := "127.0.0.1"%string.
Definition demo_port : Z := 50007.

(** The client of the module's own driver, once connected. *)
Definition demo_client (c : socket) : TCPClient.t :=
  TCPClient.mk demo_host demo_port 1 c.

(** The server of the module's own driver, once [register] returned. *)
Definition demo_server (c : socket) : TCPServer.t :=
  TCPServer.mk demo_host demo_port 4 1
    (mkSocket (Listening 4) None [] false [] [] [] [] [])
    (Some c) (Some (demo_host, 40000)).

Definition peer1 : peer := mkPeer ("10.0.0.1"%string, 40001) [] false [] [].
Definition peer2 : peer := mkPeer ("10.0.0.2"%string, 40002) [] false [] [].
Definition peer3 : peer := mkPeer ("10.0.0.3"%string, 40003) [] false [] [].

(** A server just constructed, with [peer1] about to connect. *)
Definition awaited_server : TCPServer.t :=
  TCPServer.mk demo_host demo_port 4 1
    (mkSocket Fresh None [] false [] [] [] [peer1] []) None None.

(** The same server when [register] has returned. *)
Definition registered_server : TCPServer.t :=
  TCPServer.mk demo_host demo_port 4 1
    (mkSocket (Listening 4) None [] false [] [] [] []
              [EvBind (demo_host, demo_port); EvListen 4;
               EvAccept ("10.0.0.1"%string, 40001)])
    (Some (mkSocket Connected (Some ("10.0.0.1"%string, 40001))
                    [] false [] [] [] [] []))
    (Some ("10.0.0.1"%string, 40001)).

Definition busy_afternoon : list action :=
  [PeerConnects peer2; CallRegister; CallSend [x2a];
   PeerConnects peer3; CallClose; CallRegister].

(** ** Several messages on one channel *)

(** What [send] puts on the wire for [m] when the prefix has [w] bytes. *)
Definition frame (w : Z) (m : bytes) : bytes :=
  be_bytes (Z.to_nat w) (len m) ++ m.

(** [for m in ms: ch.send(m)] *)
Fixpoint send_many (ms : list bytes) : channel -> outcome unit * channel :=
  match ms with
  | [] => pure (Done tt)
  | m :: rest => (fun ch => chan_send ch m) ;;; send_many rest
  end.

(** [[ch.recv() for _ in range(k)]] *)
Fixpoint recv_many (k : nat) : channel -> outcome (list bytes) * channel :=
  match k with
  | O => pure (Done [])
  | S k' => m <- chan_recv ;; ms <- recv_many k' ;; pure (Done (m :: ms))
  end.

(** The socket calls that went through between two states of a socket. *)
Definition calls_made (before after : socket) : Z :=
  len (sk_log after) - len (sk_log before).

(** ** The tensor helpers

    [torch] is imported if it can be and is [None] otherwise.  Of the
    module only [torch.save] into a fresh buffer and [torch.load] from
    one are used: [torch_save] gives the bytes of the buffer, and
    [torch_load] gives the value read back, or nothing when
    [torch.load] raises.  The helpers can raise what [send] and [recv]
    raise, the [ImportError] of a missing [torch], and whatever
    [torch.load] raises. *)
Record torch_module (tensor : Type) : Type := mkTorch {
  torch_save : tensor -> bytes;
  torch_load : bytes -> option tensor
}.
Arguments mkTorch {tensor} _ _.
Arguments torch_save {tensor} _ _.
Arguments torch_load {tensor} _ _.

Inductive py_exn : Type :=
| ImportError (msg : string)
| TorchError
| Exn (e : exn).

Inductive py_outcome (A : Type) : Type :=
| PyDone (a : A)
| PyRaised (e : py_exn)
| PyBlocked.
Arguments PyDone {A} a.
Arguments PyRaised {A} e.
Arguments PyBlocked {A}.

Definition lift_outcome {A : Type} (r : outcome A) : py_outcome A :=
  match r with
  | Done a => PyDone a
  | Raised e => PyRaised (Exn e)
  | Blocked => PyBlocked
  end.

(** [TCPServer.send_tensor(self, tensor)] *)
Definition server_send_tensor {tensor : Type}
  (torch : option (torch_module tensor)) (self : TCPServer.t) (t : tensor)
  : py_outcome unit * TCPServer.t :=
  match torch with
  | None => (PyRaised (ImportError "torch 未安装，无法发送 tensor"), self)
  | Some T =>
      let payload := torch_save T t in
      let (r, self') := TCPServer.send self payload in
      (lift_outcome r, self')
  end.

(** [TCPServer.recv_tensor(self)] *)
Definition server_recv_tensor {tensor : Type}
  (torch : option (torch_module tensor)) (self : TCPServer.t)
  : py_outcome tensor * TCPServer.t :=
  match torch with
  | None => (PyRaised (ImportError "torch 未安装，无法接收 tensor"), self)
  | Some T =>
      match TCPServer.recv self with
      | (Done raw, self') =>
          (match torch_load T raw with
           | Some v => PyDone v
           | None => PyRaised TorchError
           end, self')
      | (Raised e, self') => (PyRaised (Exn e), self')
      | (Blocked, self') => (PyBlocked, self')
      end
  end.

(** [TCPClient.send_tensor(self, tensor)] *)
Definition client_send_tensor {tensor : Type}
  (torch : option (torch_module tensor)) (self : TCPClient.t) (t : tensor)
  : py_outcome unit * TCPClient.t :=
  match torch with
  | None => (PyRaised (ImportError "torch 未安装，无法发送 tensor"), self)
  | Some T =>
      let payload := torch_save T t in
      let (r, self') := TCPClient.send self payload in
      (lift_outcome r, self')
  end.

(** [TCPClient.recv_tensor(self)] *)
Definition client_recv_tensor {tensor : Type}
  (torch : option (torch_module tensor)) (self : TCPClient.t)
  : py_outcome tensor * TCPClient.t :=
  match torch with
  | None => (PyRaised (ImportError "torch 未安装，无法接收 tensor"), self)
  | Some T =>
      match TCPClient.recv self with
      | (Done raw, self') =>
          (match torch_load T raw with
           | Some v => PyDone v
           | None => PyRaised TorchError
           end, self')
      | (Raised e, self') => (PyRaised (Exn e), self')
      | (Blocked, self') => (PyBlocked, self')
      end
  end.

Definition chan_send_tensor {tensor : Type}
  (torch : option (torch_module tensor)) (ch : channel) (t : tensor)
  : py_outcome unit * channel :=
  match ch with
  | ServerSide s =>
      let (r, s') := server_send_tensor torch s t in (r, ServerSide s')
  | ClientSide c =>
      let (r, c') := client_send_tensor torch c t in (r, ClientSide c')
  end.

Definition chan_recv_tensor {tensor : Type}
  (torch : option (torch_module tensor)) (ch : channel)
  : py_outcome tensor * channel :=
  match ch with
  | ServerSide s =>
      let (r, s') := server_recv_tensor torch s in (r, ServerSide s')
  | ClientSide c =>
      let (r, c') := client_recv_tensor torch c in (r, ClientSide c')
  end.

(** A stand-in for [torch] on byte strings: a tag byte in front of the
    value, checked when it is read back. *)
Definition tagged_codec : torch_module bytes :=
  mkTorch (fun t => x80 :: t)
          (fun raw => match raw with
                      | x80 :: t => Some t
                      | _ => None
                      end).

(** * Properties *)

(** The loops as plain recursive equations. *)
Lemma send_all_loop_eq sock data length total_sent :
  send_all_loop sock data length total_sent =
  if total_sent <? length then
    match socket_send sock (slice_from data total_sent) with
    | (Done sent, sock') =>
        if sent =? 0 then
          (Raised (RuntimeError "Socket connection broken during send"), sock')
        else send_all_loop sock' data length (total_sent + sent)
    | (Raised e, sock') => (Raised e, sock')
    | (Blocked, sock') => (Blocked, sock')
    end
  else (Done tt, sock).
Proof.
  funelim (send_all_loop sock data length total_sent);
    destruct (Z.ltb_spec total_sent length); try lia; try reflexivity;
    match goal with
    | E : socket_send _ _ = _ |- _ => rewrite E
    end; try reflexivity.
  - subst sent. reflexivity.
  - destruct (Z.eqb_spec sent 0); [contradiction | reflexivity].
Qed.

Lemma recv_all_loop_eq sock size chunks bytes_recd :
  recv_all_loop sock size chunks bytes_recd =
  if bytes_recd <? size then
    match socket_recv sock (Z.min (size - bytes_recd) 2048) with
    | (Done [], sock') =>
        (Raised (RuntimeError "Socket connection broken during recv"), sock')
    | (Done chunk, sock') =>
        recv_all_loop sock' size (chunks ++ [chunk]) (bytes_recd + len chunk)
    | (Raised e, sock') => (Raised e, sock')
    | (Blocked, sock') => (Blocked, sock')
    end
  else (Done (List.concat chunks), sock).
Proof.
  funelim (recv_all_loop sock size chunks bytes_recd);
    destruct (Z.ltb_spec bytes_recd size); try lia; try reflexivity;
    match goal with
    | E : socket_recv _ _ = _ |- _ => rewrite E
    end; reflexivity.
Qed.

(** ** Bytes and integers *)

Lemma Z_of_byte_range b : 0 <= Z_of_byte b < 256.
Proof.
  unfold Z_of_byte. pose proof (Byte.to_N_bounded b). lia.
Qed.

Lemma Z_of_byte_of_Z z : Z_of_byte (byte_of_Z z) = z mod 256.
Proof.
  unfold Z_of_byte, byte_of_Z.
  pose proof (Z.mod_pos_bound z 256 ltac:(lia)) as Hr.
  destruct (Byte.of_N (Z.to_N (z mod 256))) as [b|] eqn:E.
  - apply Byte.to_of_N in E. rewrite E. lia.
  - apply Byte.of_N_None_iff in E. lia.
Qed.

Lemma length_be_bytes w n : List.length (be_bytes w n) = w.
Proof.
  revert n. induction w as [|w IH]; intros n; simpl; [reflexivity|].
  rewrite length_app, IH. simpl. lia.
Qed.

(** Byte [i] of the encoding is the base-256 digit of weight
    [256^(w-1-i)]: the most significant digit comes first. *)
Lemma be_bytes_nth w :
  forall n i, (i < w)%nat ->
    nth i (be_bytes w n) x00 = byte_of_Z (n / 256 ^ Z.of_nat (w - 1 - i)).
Proof.
  induction w as [|w IH]; intros n i Hi; [lia|].
  cbn [be_bytes]. destruct (Nat.eq_dec i w) as [->|Hne].
  - rewrite app_nth2 by (rewrite length_be_bytes; lia).
    rewrite length_be_bytes, Nat.sub_diag. cbn [nth].
    replace (S w - 1 - w)%nat with 0%nat by lia.
    change (256 ^ Z.of_nat 0) with 1. rewrite Z.div_1_r.
    unfold byte_of_Z. rewrite Z.mod_mod by lia. reflexivity.
  - rewrite app_nth1 by (rewrite length_be_bytes; lia).
    rewrite IH by lia.
    replace (S w - 1 - i)%nat with (S (w - 1 - i)) by lia.
    rewrite Nat2Z.inj_succ, Z.pow_succ_r by lia.
    assert (0 < 256 ^ Z.of_nat (w - 1 - i)) by (apply Z.pow_pos_nonneg; lia).
    rewrite Z.div_div by lia. reflexivity.
Qed.

Lemma int_from_bytes_snoc l x :
  int_from_bytes (l ++ [x]) = int_from_bytes l * 256 + Z_of_byte x.
Proof.
  unfold int_from_bytes. rewrite fold_left_app. reflexivity.
Qed.

Lemma int_from_bytes_be_bytes w n :
  int_from_bytes (be_bytes w n) = n mod 256 ^ Z.of_nat w.
Proof.
  revert n. induction w as [|w IH]; intros n.
  - simpl. rewrite Z.mod_1_r. reflexivity.
  - cbn [be_bytes]. rewrite int_from_bytes_snoc, IH, Z_of_byte_of_Z.
    rewrite Nat2Z.inj_succ, Z.pow_succ_r by lia.
    assert (0 < 256 ^ Z.of_nat w) by (apply Z.pow_pos_nonneg; lia).
    rewrite Z.rem_mul_r, Z.mod_mod by lia. ring.
Qed.

Lemma int_from_bytes_bound l : 0 <= int_from_bytes l < 256 ^ len l.
Proof.
  induction l as [|x l IH] using rev_ind.
  - cbn. lia.
  - rewrite int_from_bytes_snoc. unfold len in *.
    rewrite length_app. simpl List.length.
    replace (Z.of_nat (List.length l + 1)) with (Z.succ (Z.of_nat (List.length l))) by lia.
    rewrite Z.pow_succ_r by lia.
    pose proof (Z_of_byte_range x). lia.
Qed.

(** [to_bytes] succeeds exactly on the lengths the prefix can hold, and
    [from_bytes] undoes it. *)
Lemma int_to_bytes_fits n w :
  0 <= w -> 0 <= n < 256 ^ w ->
  exists prefix,
    int_to_bytes n w = Done prefix /\
    len prefix = w /\
    int_from_bytes prefix = n /\
    prefix = be_bytes (Z.to_nat w) n.
Proof.
  intros Hw Hn. unfold int_to_bytes.
  destruct (Z.ltb_spec w 0); [lia|].
  destruct (Z.ltb_spec n 0); [lia|].
  destruct (Z.ltb_spec n (256 ^ w)); [|lia].
  eexists; split; [reflexivity|]. split; [|split; [|reflexivity]].
  - unfold len. rewrite length_be_bytes. lia.
  - rewrite int_from_bytes_be_bytes, Z2Nat.id by lia.
    apply Z.mod_small. lia.
Qed.

Lemma int_to_bytes_overflow n w :
  0 <= w -> 256 ^ w <= n ->
  int_to_bytes n w = Raised (OverflowError "int too big to convert").
Proof.
  intros Hw Hn. unfold int_to_bytes.
  assert (0 < 256 ^ w) by (apply Z.pow_pos_nonneg; lia).
  destruct (Z.ltb_spec w 0); [lia|].
  destruct (Z.ltb_spec n 0); [lia|].
  destruct (Z.ltb_spec n (256 ^ w)); [lia|reflexivity].
Qed.

(** ** Single socket calls on a connected socket *)

Lemma len_app {A : Type} (l1 l2 : list A) : len (l1 ++ l2) = len l1 + len l2.
Proof. unfold len. rewrite length_app. lia. Qed.

Lemma len_nonneg {A : Type} (l : list A) : 0 <= len l.
Proof. unfold len. lia. Qed.

Lemma socket_recv_step s n :
  sk_state s = Connected -> 1 <= n ->
  match socket_recv s n with
  | (Done chunk, s') =>
      sk_state s' = Connected /\
      sk_rx_eof s' = sk_rx_eof s /\
      sk_tx s' = sk_tx s /\
      sk_log s' = sk_log s ++ [EvRecv n chunk] /\
      sk_rx s = chunk ++ sk_rx s' /\
      len chunk <= n /\
      (chunk = [] -> sk_rx s = [] /\ sk_rx_eof s = true)
  | (Raised _, _) => False
  | (Blocked, s') => s' = s /\ sk_rx s = [] /\ sk_rx_eof s = false
  end.
Proof.
  intros Hst Hn. unfold socket_recv. rewrite Hst.
  destruct (Z.ltb_spec n 0); [lia|].
  destruct (sk_rx s) as [|b rx] eqn:Hrx.
  - destruct (sk_rx_eof s) eqn:Heof; simpl; repeat split; auto;
      unfold len; simpl; lia.
  - set (k := match sk_rx_plan s with
              | [] => Z.min n (len (b :: rx))
              | q :: _ => Z.min (Z.min n (len (b :: rx))) (Z.max 1 q)
              end).
    assert (Hk : 1 <= k <= n /\ k <= len (b :: rx)).
    { unfold k, len. simpl List.length. destruct (sk_rx_plan s); lia. }
    simpl. repeat split; auto.
    + symmetry. apply firstn_skipn.
    + unfold len. rewrite length_firstn. lia.
    + destruct (Z.to_nat k) eqn:E; [lia | discriminate].
    + destruct (Z.to_nat k) eqn:E; [lia | discriminate].
Qed.

Lemma socket_send_step s data :
  sk_state s = Connected ->
  exists k s',
    socket_send s data = (Done k, s') /\
    0 <= k <= len data /\
    sk_state s' = Connected /\
    sk_rx s' = sk_rx s /\
    sk_rx_eof s' = sk_rx_eof s /\
    sk_rx_plan s' = sk_rx_plan s /\
    sk_tx s' = sk_tx s ++ firstn (Z.to_nat k) data /\
    sk_tx_plan s' = tl (sk_tx_plan s) /\
    sk_log s' = sk_log s ++ [EvSend data k] /\
    k = match sk_tx_plan s with
        | [] => len data
        | q :: _ => Z.max 0 (Z.min q (len data))
        end.
Proof.
  intros Hst. unfold socket_send. rewrite Hst.
  do 2 eexists. split; [reflexivity|].
  simpl. repeat split; auto; pose proof (len_nonneg data);
    destruct (sk_tx_plan s); lia.
Qed.

(** ** [recv_all]: the run behind every outcome *)

Lemma recv_all_loop_spec n :
  forall sock size chunks recd r sock',
    (Z.to_nat (size - recd) <= n)%nat ->
    sk_state sock = Connected ->
    recv_all_loop sock size chunks recd = (r, sock') ->
    exists calls,
      sk_state sock' = Connected /\
      sk_rx_eof sock' = sk_rx_eof sock /\
      sk_tx sock' = sk_tx sock /\
      sk_log sock' = sk_log sock ++ recv_events calls /\
      sk_rx sock = received calls ++ sk_rx sock' /\
      reads_bounded (size - recd) calls /\
      match r with
      | Done buf =>
          buf = List.concat chunks ++ received calls /\
          len (received calls) = Z.max 0 (size - recd) /\
          Forall (fun c => snd c <> []) calls
      | Raised e =>
          e = broken_recv /\
          len (received calls) < size - recd /\
          sk_rx sock' = [] /\ sk_rx_eof sock = true /\
          exists calls0 bufsize, calls = calls0 ++ [(bufsize, [])]
      | Blocked =>
          len (received calls) < size - recd /\
          sk_rx sock' = [] /\ sk_rx_eof sock = false
      end.
Proof.
  induction n as [|n IH]; intros sock size chunks recd r sock' Hn Hst;
    rewrite recv_all_loop_eq; destruct (Z.ltb_spec recd size) as [Hlt|Hge];
    try lia.
  1, 3: intros E; inversion E; subst; exists []; cbn;
        rewrite !app_nil_r; repeat split; auto; unfold len; simpl; lia.
  pose proof (socket_recv_step sock (Z.min (size - recd) 2048) Hst
                ltac:(lia)) as Hstep.
  destruct (socket_recv sock (Z.min (size - recd) 2048)) as [[chunk| |] s1];
    [|contradiction|].
  - destruct Hstep as (Hst1 & Heof1 & Htx1 & Hlog1 & Hrx1 & Hlen1 & Hnil).
    destruct chunk as [|b chunk].
    + destruct (Hnil eq_refl) as [Hrx0 Heof0].
      intros E; inversion E; subst.
      exists [(Z.min (size - recd) 2048, [])]. cbn.
      rewrite Hrx0 in Hrx1. simpl in Hrx1.
      repeat split; auto.
      * congruence.
      * unfold len; simpl; lia.
      * exists [], (Z.min (size - recd) 2048). reflexivity.
    + intros E.
      assert (Hpos : 1 <= len (b :: chunk))
        by (unfold len; simpl List.length; lia).
      apply IH in E; [|lia|assumption].
      destruct E as (calls & Hst' & Heof' & Htx' & Hlog' & Hrx' & Hrb & Hr).
      exists ((Z.min (size - recd) 2048, b :: chunk) :: calls).
      unfold received in *. cbn [map snd fst List.concat recv_events reads_bounded].
      repeat split; try congruence.
      * rewrite Hlog', Hlog1, <- app_assoc. reflexivity.
      * rewrite Hrx1, Hrx', <- app_assoc. reflexivity.
      * replace (size - recd - len (b :: chunk))
          with (size - (recd + len (b :: chunk))) by lia. exact Hrb.
      * destruct r as [buf|e|].
        -- destruct Hr as (Hbuf & Hlen & Hall). repeat split.
           ++ rewrite Hbuf, concat_app. cbn [List.concat].
              rewrite app_nil_r, <- app_assoc. reflexivity.
           ++ rewrite len_app. lia.
           ++ constructor; [simpl; discriminate | exact Hall].
        -- destruct Hr as (He & Hlen & Hrx0 & Heof0 & calls0 & q & Hc).
           repeat split; auto.
           ++ rewrite len_app. lia.
           ++ congruence.
           ++ exists ((Z.min (size - recd) 2048, b :: chunk) :: calls0), q.
              rewrite Hc. reflexivity.
        -- destruct Hr as (Hlen & Hrx0 & Heof0).
           repeat split; auto.
           ++ rewrite len_app. lia.
           ++ congruence.
  - destruct Hstep as (-> & Hrx0 & Heof0).
    intros E; inversion E; subst.
    exists []. cbn. repeat split; auto.
    + rewrite app_nil_r. reflexivity.
    + unfold len; simpl; lia.
Qed.

(** ** [send_all]: the run behind every outcome *)

Lemma firstn_plus {A : Type} (a b : nat) (l : list A) :
  firstn (a + b) l = firstn a l ++ firstn b (skipn a l).
Proof.
  revert l. induction a as [|a IH]; intros l; simpl; [reflexivity|].
  destruct l; simpl; [rewrite firstn_nil; reflexivity|].
  rewrite IH. reflexivity.
Qed.

Lemma len_slice_from {A : Type} (l : list A) (i : Z) :
  0 <= i <= len l -> len (slice_from l i) = len l - i.
Proof.
  unfold len, slice_from. intros Hi. rewrite length_skipn. lia.
Qed.

Lemma slice_from_add {A : Type} (l : list A) (i k : Z) :
  0 <= i -> 0 <= k ->
  slice_from l (i + k) = skipn (Z.to_nat k) (slice_from l i).
Proof.
  intros Hi Hk. unfold slice_from.
  rewrite skipn_skipn, Z2Nat.inj_add by lia. f_equal. lia.
Qed.

Lemma send_all_loop_spec n :
  forall sock data total r sock',
    (Z.to_nat (len data - total) <= n)%nat ->
    0 <= total <= len data ->
    sk_state sock = Connected ->
    send_all_loop sock data (len data) total = (r, sock') ->
    exists calls,
      sk_state sock' = Connected /\
      sk_rx sock' = sk_rx sock /\
      sk_rx_eof sock' = sk_rx_eof sock /\
      sk_rx_plan sock' = sk_rx_plan sock /\
      sk_log sock' = sk_log sock ++ send_events calls /\
      writes_follow data total calls /\
      sk_tx sock' =
        sk_tx sock ++ firstn (Z.to_nat (taken calls)) (slice_from data total) /\
      0 <= taken calls /\
      match r with
      | Done _ =>
          total + taken calls = len data /\
          Forall (fun c => 0 < snd c) calls
      | Raised e =>
          e = broken_send /\
          total + taken calls < len data /\
          exists calls0 buf,
            calls = calls0 ++ [(buf, 0)] /\
            Forall (fun c => 0 < snd c) calls0
      | Blocked => False
      end.
Proof.
  induction n as [|n IH]; intros sock data total r sock' Hn Htot Hst;
    rewrite send_all_loop_eq;
    destruct (Z.ltb_spec total (len data)) as [Hlt|Hge]; try lia.
  1, 3: intros E; inversion E; subst; exists []; cbn;
        rewrite !app_nil_r; repeat split; auto; lia.
  destruct (socket_send_step sock (slice_from data total) Hst)
    as (k & s1 & Hcall & Hk & Hst1 & Hrx1 & Heof1 & Hpl1 & Htx1 & _ & Hlog1 & _).
  rewrite Hcall.
  rewrite len_slice_from in Hk by lia.
  destruct (Z.eqb_spec k 0) as [->|Hk0].
  - intros E; inversion E; subst.
    exists [(slice_from data total, 0)]. cbn.
    rewrite len_slice_from by lia.
    repeat split; auto; try lia.
    exists [], (slice_from data total). split; [reflexivity | constructor].
  - intros E. apply IH in E; [|lia|lia|assumption].
    destruct E as (calls & Hst' & Hrx' & Heof' & Hpl' & Hlog' & Hwf & Htx'
                   & Hnn & Hr).
    exists ((slice_from data total, k) :: calls).
    unfold taken in *. cbn [map snd fst fold_right send_events writes_follow].
    rewrite len_slice_from by lia.
    repeat split; try congruence; try lia; try exact Hwf.
    + rewrite Hlog', Hlog1, <- app_assoc. reflexivity.
    + rewrite Htx', Htx1, <- app_assoc. f_equal.
      rewrite Z2Nat.inj_add, firstn_plus by lia.
      rewrite slice_from_add by lia. reflexivity.
    + destruct r as [u|e|]; [| |contradiction].
      * destruct Hr as [Hsum Hall]. split; [lia|].
        constructor; [simpl; lia | exact Hall].
      * destruct Hr as (He & Hsum & calls0 & buf & Hc & Hall).
        repeat split; auto; try lia.
        exists ((slice_from data total, k) :: calls0), buf.
        split; [rewrite Hc; reflexivity|].
        constructor; [simpl; lia | exact Hall].
Qed.

(** A transport that takes at least a byte per call never breaks the
    loop. *)
Lemma send_all_loop_done n :
  forall sock data total,
    (Z.to_nat (len data - total) <= n)%nat ->
    0 <= total <= len data ->
    sk_state sock = Connected ->
    Forall (fun q => 0 < q) (sk_tx_plan sock) ->
    fst (send_all_loop sock data (len data) total) = Done tt.
Proof.
  induction n as [|n IH]; intros sock data total Hn Htot Hst Hplan;
    rewrite send_all_loop_eq;
    destruct (Z.ltb_spec total (len data)) as [Hlt|Hge]; try lia;
    try reflexivity.
  destruct (socket_send_step sock (slice_from data total) Hst)
    as (k & s1 & Hcall & Hk & Hst1 & _ & _ & _ & _ & Hpl1 & _ & Hkdef).
  rewrite Hcall. rewrite len_slice_from in * by lia.
  assert (Hkpos : 0 < k).
  { destruct (sk_tx_plan sock) as [|q plan]; [lia|].
    inversion Hplan; subst. lia. }
  destruct (Z.eqb_spec k 0); [lia|].
  apply IH; try lia; try assumption.
  rewrite Hpl1. destruct (sk_tx_plan sock); [constructor|].
  inversion Hplan; assumption.
Qed.

(** ** The two classes frame alike *)

Lemma chan_send_stream ch c m :
  chan_stream ch = Some c ->
  chan_send ch m =
  match int_to_bytes (len m) (chan_prefix_size ch) with
  | Done prefix =>
      let (r, c') := send_all c (prefix ++ m) in (r, chan_with_stream ch c')
  | Raised e => (Raised e, ch)
  | Blocked => (Blocked, ch)
  end.
Proof.
  destruct ch as [[h p b w s cn a]|[h p w s]]; simpl; intros E.
  - subst cn. unfold TCPServer.send, bind, pure. simpl.
    destruct (int_to_bytes (len m) w); try reflexivity.
    unfold TCPServer.conn_send_all, TCPServer.on_conn. simpl.
    destruct (send_all c (a0 ++ m)); reflexivity.
  - inversion E; subst. unfold TCPClient.send, bind, pure. simpl.
    destruct (int_to_bytes (len m) w); try reflexivity.
    unfold TCPClient.on_sock. simpl.
    destruct (send_all c (a ++ m)); reflexivity.
Qed.

Lemma chan_recv_stream ch c :
  chan_stream ch = Some c ->
  chan_recv ch =
  match recv_all c (chan_prefix_size ch) with
  | (Done raw_len, c1) =>
      let (r, c2) := recv_all c1 (int_from_bytes raw_len) in
      (r, chan_with_stream ch c2)
  | (Raised e, c1) => (Raised e, chan_with_stream ch c1)
  | (Blocked, c1) => (Blocked, chan_with_stream ch c1)
  end.
Proof.
  destruct ch as [[h p b w s cn a]|[h p w s]]; simpl; intros E.
  - subst cn. unfold TCPServer.recv, bind, TCPServer.conn_recv_all,
      TCPServer.on_conn. simpl.
    destruct (recv_all c w) as [[raw|e|] c1]; try reflexivity. simpl.
    destruct (recv_all c1 (int_from_bytes raw)); reflexivity.
  - inversion E; subst. unfold TCPClient.recv, bind, TCPClient.on_sock. simpl.
    destruct (recv_all c w) as [[raw|e|] c1]; try reflexivity. simpl.
    destruct (recv_all c1 (int_from_bytes raw)); reflexivity.
Qed.

Lemma chan_close_stream ch c :
  chan_stream ch = Some c ->
  fst (chan_close ch) = Done tt /\
  chan_stream (snd (chan_close ch)) = Some (snd (socket_close c)) /\
  chan_prefix_size (snd (chan_close ch)) = chan_prefix_size ch.
Proof.
  destruct ch as [[h p b w s cn a]|[h p w s]]; simpl; intros E.
  - subst cn. unfold TCPServer.close, bind, TCPServer.on_conn,
      TCPServer.on_sock. simpl.
    unfold socket_close.
    destruct (sk_state c); simpl; destruct (sk_state s); simpl;
      repeat split; reflexivity.
  - inversion E; subst. unfold TCPClient.close, TCPClient.on_sock.
    simpl. unfold socket_close. destruct (sk_state c); simpl;
      repeat split; reflexivity.
Qed.

Lemma socket_close_state s : sk_state (snd (socket_close s)) = Closed.
Proof.
  unfold socket_close. destruct (sk_state s) eqn:E; simpl; auto.
Qed.

(** ** [recv_all], outcome by outcome *)

Lemma firstn_exact {A : Type} (l1 l2 : list A) :
  firstn (List.length l1) (l1 ++ l2) = l1.
Proof. induction l1; simpl; congruence. Qed.

Lemma skipn_exact {A : Type} (l1 l2 : list A) :
  skipn (List.length l1) (l1 ++ l2) = l2.
Proof. induction l1; simpl; congruence. Qed.

Lemma recv_all_spec sock n r sock' :
  sk_state sock = Connected ->
  recv_all sock n = (r, sock') ->
  exists calls,
    sk_state sock' = Connected /\
    sk_rx_eof sock' = sk_rx_eof sock /\
    sk_tx sock' = sk_tx sock /\
    sk_log sock' = sk_log sock ++ recv_events calls /\
    sk_rx sock = received calls ++ sk_rx sock' /\
    reads_bounded n calls /\
    match r with
    | Done buf =>
        buf = received calls /\
        len (received calls) = Z.max 0 n /\
        Forall (fun c => snd c <> []) calls
    | Raised e =>
        e = broken_recv /\
        len (received calls) < n /\
        sk_rx sock' = [] /\ sk_rx_eof sock = true /\
        exists calls0 bufsize, calls = calls0 ++ [(bufsize, [])]
    | Blocked =>
        len (received calls) < n /\
        sk_rx sock' = [] /\ sk_rx_eof sock = false
    end.
Proof.
  intros Hst E. unfold recv_all in E.
  apply (recv_all_loop_spec (Z.to_nat (n - 0))) in E; [|lia|assumption].
  rewrite Z.sub_0_r in E. exact E.
Qed.

(** The outcome of [recv_all] is decided by what the peer sent: enough
    bytes and the first [n] of them come back; too few and the call
    breaks if the peer has closed, and waits forever if it has not. *)
Lemma recv_all_outcome sock n :
  0 <= n -> sk_state sock = Connected ->
  sk_state (snd (recv_all sock n)) = Connected /\
  sk_rx_eof (snd (recv_all sock n)) = sk_rx_eof sock /\
  if n <=? len (sk_rx sock) then
    fst (recv_all sock n) = Done (firstn (Z.to_nat n) (sk_rx sock)) /\
    sk_rx (snd (recv_all sock n)) = skipn (Z.to_nat n) (sk_rx sock)
  else
    fst (recv_all sock n) =
      if sk_rx_eof sock then Raised broken_recv else Blocked.
Proof.
  intros Hn Hst.
  destruct (recv_all sock n) as [r sock'] eqn:E. simpl.
  destruct (recv_all_spec sock n r sock' Hst E)
    as (calls & Hst' & Heof & _ & _ & Hrx & _ & Hr).
  split; [assumption|]. split; [assumption|].
  assert (Hlen : len (sk_rx sock) = len (received calls) + len (sk_rx sock'))
    by (rewrite Hrx at 1; apply len_app).
  pose proof (len_nonneg (sk_rx sock')) as Hnn.
  destruct r as [buf|e|].
  - destruct Hr as (-> & Hl & _).
    destruct (Z.leb_spec n (len (sk_rx sock))); [|lia].
    assert (Hk : Z.to_nat n = List.length (received calls))
      by (unfold len in Hl; lia).
    rewrite Hk, Hrx. rewrite firstn_exact, skipn_exact. split; reflexivity.
  - destruct Hr as (-> & Hl & Hnil & Heof1 & _).
    rewrite Hnil in Hlen. unfold len at 3 in Hlen. simpl in Hlen.
    destruct (Z.leb_spec n (len (sk_rx sock))); [lia|].
    rewrite Heof1. reflexivity.
  - destruct Hr as (Hl & Hnil & Heof1).
    rewrite Hnil in Hlen. unfold len at 3 in Hlen. simpl in Hlen.
    destruct (Z.leb_spec n (len (sk_rx sock))); [lia|].
    rewrite Heof1. reflexivity.
Qed.

Lemma reads_bounded_cap missing calls :
  reads_bounded missing calls ->
  Forall (fun c => fst c <= 2048) calls.
Proof.
  revert missing. induction calls as [|[q chunk] calls IH]; intros missing H.
  - constructor.
  - destruct H as [Hq Hrest]. constructor; [simpl; lia | eauto].
Qed.

(** What [send_all] did, in the form the framing layer needs. *)
Lemma send_all_run sock data :
  sk_state sock = Connected ->
  exists calls,
    sk_log (snd (send_all sock data)) = sk_log sock ++ send_events calls /\
    writes_follow data 0 calls /\
    (fst (send_all sock data) = Done tt ->
     sk_tx (snd (send_all sock data)) = sk_tx sock ++ data).
Proof.
  intros Hst.
  destruct (send_all sock data) as [r sock'] eqn:E. unfold send_all in E.
  apply (send_all_loop_spec (Z.to_nat (len data - 0))) in E;
    [|lia|pose proof (len_nonneg data); lia|assumption].
  destruct E as (calls & _ & _ & _ & _ & Hlog & Hwf & Htx & Hnn & Hr).
  exists calls. simpl. unfold slice_from in Htx. simpl in Htx.
  repeat split; try assumption.
  intros ->. destruct Hr as [Hsum _].
  rewrite Htx. f_equal. apply firstn_all2. unfold len in Hsum. lia.
Qed.

(** ** Receiving one frame *)

Lemma chan_stream_with ch c : chan_stream (chan_with_stream ch c) = Some c.
Proof. destruct ch; reflexivity. Qed.

Lemma chan_prefix_size_with ch c :
  chan_prefix_size (chan_with_stream ch c) = chan_prefix_size ch.
Proof. destruct ch; reflexivity. Qed.

Lemma chan_with_stream_same ch c :
  chan_stream ch = Some c -> chan_with_stream ch c = ch.
Proof.
  destruct ch as [[h p b w s cn a]|[h p w s]]; simpl; intros E.
  - subst cn. reflexivity.
  - inversion E; subst. reflexivity.
Qed.

(** The outcome of [recv] on a connected stream, read off the bytes the
    peer sent: the first [prefix_size] bytes give the length [n], the
    next [n] bytes are the message; a stream that ends early breaks the
    call, one that stays open and short keeps it waiting. *)
Lemma chan_recv_outcome ch c :
  chan_stream ch = Some c -> sk_state c = Connected ->
  0 <= chan_prefix_size ch ->
  fst (chan_recv ch) =
  if chan_prefix_size ch <=? len (sk_rx c) then
    if int_from_bytes (firstn (Z.to_nat (chan_prefix_size ch)) (sk_rx c))
       <=? len (skipn (Z.to_nat (chan_prefix_size ch)) (sk_rx c))
    then
      Done (firstn
              (Z.to_nat (int_from_bytes
                           (firstn (Z.to_nat (chan_prefix_size ch)) (sk_rx c))))
              (skipn (Z.to_nat (chan_prefix_size ch)) (sk_rx c)))
    else if sk_rx_eof c then Raised broken_recv else Blocked
  else if sk_rx_eof c then Raised broken_recv else Blocked.
Proof.
  intros Hc Hst Hw. rewrite (chan_recv_stream ch c Hc).
  pose proof (recv_all_outcome c (chan_prefix_size ch) Hw Hst)
    as (Hst1 & Heof1 & Hout1).
  destruct (recv_all c (chan_prefix_size ch)) as [r1 c1] eqn:E1.
  simpl in Hst1, Heof1, Hout1.
  destruct (Z.leb_spec (chan_prefix_size ch) (len (sk_rx c))).
  - destruct Hout1 as [-> Hrx1].
    set (n := int_from_bytes
                (firstn (Z.to_nat (chan_prefix_size ch)) (sk_rx c))).
    assert (Hn : 0 <= n) by apply int_from_bytes_bound.
    pose proof (recv_all_outcome c1 n Hn Hst1) as (_ & _ & Hout2).
    destruct (recv_all c1 n) as [r2 c2] eqn:E2. simpl in Hout2 |- *.
    rewrite Hrx1 in Hout2. rewrite Heof1 in Hout2.
    destruct (Z.leb_spec n
                (len (skipn (Z.to_nat (chan_prefix_size ch)) (sk_rx c)))).
    + destruct Hout2 as [-> _]. reflexivity.
    + exact Hout2.
  - subst r1. destruct (sk_rx_eof c); reflexivity.
Qed.

(** ** Calls on a closed socket *)

Lemma send_all_closed s data :
  sk_state s = Closed -> data <> [] ->
  send_all s data = (Raised (OSError EBADF), s).
Proof.
  intros Hst Hne. unfold send_all. rewrite send_all_loop_eq.
  destruct (Z.ltb_spec 0 (len data)) as [_|Hl].
  - unfold socket_send. rewrite Hst. reflexivity.
  - destruct data; [congruence | unfold len in Hl; simpl in Hl; lia].
Qed.

Lemma recv_all_closed s n :
  sk_state s = Closed -> 1 <= n ->
  recv_all s n = (Raised (OSError EBADF), s).
Proof.
  intros Hst Hn. unfold recv_all. rewrite recv_all_loop_eq.
  destruct (Z.ltb_spec 0 n); [|lia].
  unfold socket_recv. rewrite Hst. reflexivity.
Qed.

(** ** Closing *)

Lemma socket_close_closed s :
  sk_state s = Closed -> socket_close s = (Done tt, s).
Proof. intros E. unfold socket_close. rewrite E. reflexivity. Qed.

Lemma chan_close_closes ch c :
  chan_stream ch = Some c -> chan_closed (snd (chan_close ch)).
Proof.
  destruct ch as [[h p b w s cn a]|[h p w s]]; simpl; intros E.
  - subst cn.
    assert (H : TCPServer.close (TCPServer.mk h p b w s (Some c) a) =
                (Done tt,
                 TCPServer.mk h p b w (snd (socket_close s))
                              (Some (snd (socket_close c))) a)).
    { unfold TCPServer.close, bind, TCPServer.on_conn, TCPServer.on_sock.
      simpl. destruct (socket_close c) as [[u| |] c'] eqn:Ec;
        unfold socket_close in Ec; destruct (sk_state c); try discriminate.
      all: simpl; destruct (socket_close s) as [[u'| |] s'] eqn:Es;
        unfold socket_close in Es; destruct (sk_state s); try discriminate.
      all: destruct u'; reflexivity. }
    rewrite H. simpl. split; [apply socket_close_state|].
    eexists; split; [reflexivity | apply socket_close_state].
  - unfold TCPClient.close, TCPClient.on_sock. simpl.
    destruct (socket_close s) as [r s'] eqn:Es. simpl.
    change s' with (snd (r, s')). rewrite <- Es. apply socket_close_state.
Qed.

Lemma chan_close_again ch :
  chan_closed ch -> chan_close ch = (Done tt, ch).
Proof.
  destruct ch as [[h p b w s cn a]|[h p w s]]; simpl.
  - intros (Hs & c & -> & Hc).
    unfold TCPServer.close, bind, TCPServer.on_conn, TCPServer.on_sock. simpl.
    rewrite (socket_close_closed c Hc). simpl.
    rewrite (socket_close_closed s Hs). reflexivity.
  - intros Hs. unfold TCPClient.close, TCPClient.on_sock. simpl.
    rewrite (socket_close_closed s Hs). reflexivity.
Qed.

(** ** The listening socket after the first [accept] *)

Lemma socket_send_remote s d : sk_remote (snd (socket_send s d)) = sk_remote s.
Proof. unfold socket_send. destruct (sk_state s); reflexivity. Qed.

Lemma socket_recv_remote s n : sk_remote (snd (socket_recv s n)) = sk_remote s.
Proof.
  unfold socket_recv. destruct (sk_state s); try reflexivity.
  destruct (n <? 0); try reflexivity.
  destruct (sk_rx s); try reflexivity.
  destruct (sk_rx_eof s); reflexivity.
Qed.

Lemma socket_close_remote s : sk_remote (snd (socket_close s)) = sk_remote s.
Proof. unfold socket_close. destruct (sk_state s); reflexivity. Qed.

Lemma send_all_loop_remote sock data length total :
  sk_remote (snd (send_all_loop sock data length total)) = sk_remote sock.
Proof.
  funelim (send_all_loop sock data length total); simpl;
    try reflexivity;
    match goal with
    | E : socket_send ?s ?d = (_, ?s') |- _ =>
        let R := fresh "R" in
        pose proof (socket_send_remote s d) as R; rewrite E in R; simpl in R
    end; congruence.
Qed.

Lemma recv_all_loop_remote sock size chunks recd :
  sk_remote (snd (recv_all_loop sock size chunks recd)) = sk_remote sock.
Proof.
  funelim (recv_all_loop sock size chunks recd); simpl;
    try reflexivity;
    match goal with
    | E : socket_recv ?s ?n = (_, ?s') |- _ =>
        let R := fresh "R" in
        pose proof (socket_recv_remote s n) as R; rewrite E in R; simpl in R
    end; congruence.
Qed.

Lemma on_conn_keeps {A : Type} (m : socket -> outcome A * socket) none self :
  (forall c, sk_remote (snd (m c)) = sk_remote c) ->
  conn_remote (snd (TCPServer.on_conn m none self)) = conn_remote self /\
  TCPServer.sock (snd (TCPServer.on_conn m none self)) = TCPServer.sock self /\
  TCPServer.addr (snd (TCPServer.on_conn m none self)) = TCPServer.addr self.
Proof.
  intros Hm. unfold TCPServer.on_conn, conn_remote.
  destruct (TCPServer.conn self) as [c|] eqn:Ec; simpl.
  - specialize (Hm c). destruct (m c) as [r c']. simpl in *.
    rewrite Hm. auto.
  - rewrite Ec. auto.
Qed.

Lemma send_keeps self data :
  conn_remote (snd (TCPServer.send self data)) = conn_remote self /\
  TCPServer.sock (snd (TCPServer.send self data)) = TCPServer.sock self /\
  TCPServer.addr (snd (TCPServer.send self data)) = TCPServer.addr self.
Proof.
  unfold TCPServer.send, bind, pure.
  destruct (int_to_bytes (len data) (TCPServer.prefix_size self)); auto.
  unfold TCPServer.conn_send_all.
  apply on_conn_keeps. intros c. apply send_all_loop_remote.
Qed.

Lemma recv_keeps self :
  conn_remote (snd (TCPServer.recv self)) = conn_remote self /\
  TCPServer.sock (snd (TCPServer.recv self)) = TCPServer.sock self /\
  TCPServer.addr (snd (TCPServer.recv self)) = TCPServer.addr self.
Proof.
  unfold TCPServer.recv, bind, TCPServer.conn_recv_all.
  pose proof (on_conn_keeps
                (fun c => recv_all c (TCPServer.prefix_size self))
                (if 0 <? TCPServer.prefix_size self
                 then Raised (AttributeError "'NoneType' object has no attribute 'recv'")
                 else Done []) self
                (fun c => recv_all_loop_remote c _ _ _)) as (H1 & H2 & H3).
  destruct (TCPServer.on_conn _ _ self) as [[raw|e|] self1]; simpl in *; auto.
  match goal with
  | |- context [TCPServer.on_conn ?m ?none self1] =>
      pose proof (on_conn_keeps m none self1
                    (fun c => recv_all_loop_remote c _ _ _)) as (K1 & K2 & K3)
  end.
  repeat split; congruence.
Qed.

Lemma accepted_app_close s :
  accepted (snd (socket_close s)) = accepted s.
Proof.
  unfold socket_close, accepted. destruct (sk_state s); simpl; try reflexivity;
    rewrite flat_map_app; simpl; apply app_nil_r.
Qed.

Lemma close_keeps self :
  conn_remote (snd (TCPServer.close self)) = conn_remote self /\
  TCPServer.sock (snd (TCPServer.close self))
  = snd (socket_close (TCPServer.sock self)) /\
  TCPServer.addr (snd (TCPServer.close self)) = TCPServer.addr self.
Proof.
  unfold TCPServer.close, bind.
  assert (H : exists self1,
             (match TCPServer.conn self with
              | Some _ => TCPServer.on_conn socket_close (Done tt)
              | None => pure (Done tt)
              end) self = (Done tt, self1) /\
             conn_remote self1 = conn_remote self /\
             TCPServer.sock self1 = TCPServer.sock self /\
             TCPServer.addr self1 = TCPServer.addr self).
  { destruct (TCPServer.conn self) as [c|] eqn:Ec.
    - pose proof (on_conn_keeps socket_close (Done tt) self
                    socket_close_remote) as K.
      unfold TCPServer.on_conn in *. rewrite Ec in *.
      destruct (socket_close c) as [r c'] eqn:E.
      assert (r = Done tt)
        by (unfold socket_close in E; destruct (sk_state c); congruence).
      subst r. eexists. split; [reflexivity | exact K].
    - exists self. unfold pure. auto. }
  destruct H as (self1 & -> & H1 & H2 & H3).
  unfold TCPServer.on_sock.
  destruct (socket_close (TCPServer.sock self1)) as [r s'] eqn:E. simpl.
  rewrite <- H2, E. simpl. unfold conn_remote in *. simpl. auto.
Qed.

(** Once the listening socket listens or is closed, [register] raises in
    [bind] and changes nothing. *)
Lemma register_again self :
  (sk_state (TCPServer.sock self) = Closed \/
   exists b, sk_state (TCPServer.sock self) = Listening b) ->
  (exists e, fst (TCPServer.register self) = Raised (OSError e)) /\
  TCPServer.conn (snd (TCPServer.register self)) = TCPServer.conn self /\
  TCPServer.sock (snd (TCPServer.register self)) = TCPServer.sock self /\
  TCPServer.addr (snd (TCPServer.register self)) = TCPServer.addr self.
Proof.
  intros H. unfold TCPServer.register, bind, TCPServer.on_sock, socket_bind.
  destruct H as [E|[b E]]; rewrite E; simpl; eauto.
Qed.

(** What a [register] that returned has done. *)
Lemma register_done self self1 :
  TCPServer.register self = (Done tt, self1) ->
  exists p rest,
    sk_pending (TCPServer.sock self) = p :: rest /\
    (exists c, TCPServer.conn self1 = Some c /\ sk_remote c = Some (p_addr p)) /\
    TCPServer.addr self1 = Some (p_addr p) /\
    accepted (TCPServer.sock self1)
    = accepted (TCPServer.sock self) ++ [p_addr p] /\
    sk_pending (TCPServer.sock self1) = rest /\
    sk_state (TCPServer.sock self1) = Listening (TCPServer.backlog self).
Proof.
  unfold TCPServer.register, bind, TCPServer.on_sock, socket_bind.
  destruct (sk_state (TCPServer.sock self)) eqn:Es; simpl; try discriminate.
  unfold socket_listen; simpl. unfold socket_accept; simpl.
  destruct (sk_pending (TCPServer.sock self)) as [|p rest] eqn:Ep; simpl;
    try discriminate.
  intros H; inversion H; subst; clear H. simpl.
  exists p, rest. repeat split; eauto.
  unfold accepted. simpl. rewrite !flat_map_app. simpl.
  rewrite !app_nil_r. reflexivity.
Qed.

Lemma conn_remote_some self a0 :
  conn_remote self = Some (Some a0) <->
  exists c, TCPServer.conn self = Some c /\ sk_remote c = Some a0.
Proof.
  unfold conn_remote. destruct (TCPServer.conn self) as [c|]; simpl; split.
  - intros H; inversion H. eauto.
  - intros (c' & E & H). inversion E; subst. congruence.
  - discriminate.
  - intros (c' & E & _). discriminate.
Qed.

Lemma incoming_keeps s p :
  sk_log (incoming s p) = sk_log s /\
  sk_state (incoming s p) = sk_state s /\
  (sk_pending (incoming s p) = sk_pending s ++ [] \/
   sk_pending (incoming s p) = sk_pending s ++ [p]).
Proof.
  unfold incoming. destruct (sk_state s) eqn:E; rewrite ?app_nil_r; auto.
  destruct (len (sk_pending s) <? Z.max backlog 1); simpl;
    rewrite ?app_nil_r; auto.
Qed.

Lemma socket_close_pending s :
  sk_pending (snd (socket_close s)) = sk_pending s.
Proof. unfold socket_close. destruct (sk_state s); reflexivity. Qed.

(** No event on a server that holds its connection gives it another one,
    and a peer that tries to connect ends up in the queue of the
    listening socket or nowhere. *)
Lemma step_consumed a0 served self act :
  consumed a0 served self ->
  consumed a0 served (step self act) /\
  exists l,
    sk_pending (TCPServer.sock (step self act))
    = sk_pending (TCPServer.sock self) ++ l /\
    incl l (attempts [act]).
Proof.
  intros (Hconn & Haddr & Hacc & Hstate).
  apply conn_remote_some in Hconn.
  unfold consumed. rewrite <- conn_remote_some.
  destruct act as [p| |data| |]; simpl.
  - destruct (incoming_keeps (TCPServer.sock self) p) as (Hlog & Hst & Hq).
    repeat split; try assumption.
    + unfold accepted in *. rewrite Hlog. assumption.
    + rewrite Hst. assumption.
    + destruct Hq as [Hq|Hq]; rewrite Hq; eexists; split; try reflexivity.
      * intros x [].
      * intros x Hx. exact Hx.
  - destruct (register_again self Hstate) as (_ & Hc & Hs & Ha).
    unfold conn_remote. rewrite Hc, Hs, Ha.
    repeat split; try assumption.
    exists []. rewrite app_nil_r. split; [reflexivity | intros x []].
  - destruct (send_keeps self data) as (Hc & Hs & Ha).
    rewrite Hc, Hs, Ha. repeat split; try assumption.
    exists []. rewrite app_nil_r. split; [reflexivity | intros x []].
  - destruct (recv_keeps self) as (Hc & Hs & Ha).
    rewrite Hc, Hs, Ha. repeat split; try assumption.
    exists []. rewrite app_nil_r. split; [reflexivity | intros x []].
  - destruct (close_keeps self) as (Hc & Hs & Ha).
    rewrite Hc, Hs, Ha, accepted_app_close, socket_close_state,
      socket_close_pending.
    repeat split; try assumption; auto.
    exists []. rewrite app_nil_r. split; [reflexivity | intros x []].
Qed.

Lemma run_consumed a0 served acts :
  forall self,
    consumed a0 served self ->
    consumed a0 served (run self acts) /\
    exists queued,
      sk_pending (TCPServer.sock (run self acts))
      = sk_pending (TCPServer.sock self) ++ queued /\
      incl queued (attempts acts).
Proof.
  induction acts as [|act acts IH]; intros self H.
  - split; [exact H|]. exists []. rewrite app_nil_r.
    split; [reflexivity | intros x []].
  - destruct (step_consumed a0 served self act H) as (H1 & l & Hl & Hin).
    destruct (IH _ H1) as (H2 & queued & Hq & Hqin).
    split; [exact H2|].
    exists (l ++ queued). unfold run in *. simpl fold_left.
    rewrite Hq, Hl, <- app_assoc. split; [reflexivity|].
    unfold attempts in *. simpl flat_map in *. rewrite app_nil_r in Hin.
    apply incl_app; [apply incl_appl | apply incl_appr]; assumption.
Qed.

(** * The claims *)

(** C1.  Two endpoints of either class share a connection and the same
    prefix width [W] in [1,8].  For every message [m] shorter than
    [256^W], on a transport that takes at least one byte per call, [send]
    on one endpoint returns, and once the bytes the transport took during
    that [send] have reached the other endpoint (which had nothing
    unread), [recv] there returns exactly [m], however the transport cuts
    the stream into chunks on either side. *)
Theorem send_then_recv_roundtrip (a b : channel) (ca cb : socket) (m : bytes) :
  1 <= chan_prefix_size a <= 8 ->
  chan_prefix_size b = chan_prefix_size a ->
  len m < 256 ^ chan_prefix_size a ->
  chan_stream a = Some ca -> sk_state ca = Connected ->
  Forall (fun q => 0 < q) (sk_tx_plan ca) ->
  chan_stream b = Some cb -> sk_state cb = Connected -> sk_rx cb = [] ->
  exists ca',
    chan_send a m = (Done tt, chan_with_stream a ca') /\
    fst (chan_recv (chan_with_stream b (deliver (sent_since ca ca') cb)))
    = Done m.
Proof.
  intros Hw Hwb Hfit Ha Hsta Hplan Hb Hstb Hrxb.
  destruct (int_to_bytes_fits (len m) (chan_prefix_size a) ltac:(lia)
              ltac:(pose proof (len_nonneg m); lia))
    as (prefix & Henc & Hlen & Hdec & _).
  exists (snd (send_all ca (prefix ++ m))).
  assert (Hdone : fst (send_all ca (prefix ++ m)) = Done tt).
  { unfold send_all. apply (send_all_loop_done (Z.to_nat (len (prefix ++ m) - 0)));
      try assumption; [lia | pose proof (len_nonneg (prefix ++ m)); lia]. }
  destruct (send_all_run ca (prefix ++ m) Hsta) as (calls & _ & _ & Htx).
  specialize (Htx Hdone).
  split.
  - rewrite (chan_send_stream a ca m Ha), Henc.
    destruct (send_all ca (prefix ++ m)) as [r ca']. simpl in *.
    subst r. reflexivity.
  - set (ca' := snd (send_all ca (prefix ++ m))) in *.
    assert (Hwire : sent_since ca ca' = prefix ++ m).
    { unfold sent_since. rewrite Htx. apply skipn_exact. }
    rewrite Hwire.
    rewrite (chan_recv_outcome (chan_with_stream b (deliver (prefix ++ m) cb))
               (deliver (prefix ++ m) cb));
      [| apply chan_stream_with | exact Hstb
       | rewrite chan_prefix_size_with; lia].
    rewrite chan_prefix_size_with, Hwb. simpl sk_rx. rewrite Hrxb. simpl app.
    assert (Hk : Z.to_nat (chan_prefix_size a) = List.length prefix)
      by (unfold len in Hlen; lia).
    rewrite Hk, firstn_exact, skipn_exact, Hdec, len_app.
    destruct (Z.leb_spec (chan_prefix_size a) (len prefix + len m));
      [|pose proof (len_nonneg m); lia].
    destruct (Z.leb_spec (len m) (len m)); [|lia].
    f_equal. apply firstn_all2. unfold len. lia.
Qed.

Lemma send_then_recv_roundtrip_witness :
  1 <= chan_prefix_size (ClientSide (demo_client (connected [] false [] [2; 1]))) <= 8 /\
  chan_prefix_size (ServerSide (demo_server (connected [] false [1; 2] [])))
  = chan_prefix_size (ClientSide (demo_client (connected [] false [] [2; 1]))) /\
  len [x01; x02; x03; x04; x05]
  < 256 ^ chan_prefix_size (ClientSide (demo_client (connected [] false [] [2; 1]))) /\
  chan_stream (ClientSide (demo_client (connected [] false [] [2; 1])))
  = Some (connected [] false [] [2; 1]) /\
  sk_state (connected [] false [] [2; 1]) = Connected /\
  Forall (fun q => 0 < q) (sk_tx_plan (connected [] false [] [2; 1])) /\
  chan_stream (ServerSide (demo_server (connected [] false [1; 2] [])))
  = Some (connected [] false [1; 2] []) /\
  sk_state (connected [] false [1; 2] []) = Connected /\
  sk_rx (connected [] false [1; 2] []) = [] /\
  exists ca',
    chan_send (ClientSide (demo_client (connected [] false [] [2; 1])))
              [x01; x02; x03; x04; x05]
    = (Done tt,
       chan_with_stream
         (ClientSide (demo_client (connected [] false [] [2; 1]))) ca') /\
    fst (chan_recv
           (chan_with_stream
              (ServerSide (demo_server (connected [] false [1; 2] [])))
              (deliver (sent_since (connected [] false [] [2; 1]) ca')
                       (connected [] false [1; 2] []))))
    = Done [x01; x02; x03; x04; x05].
Proof.
  assert (Hplan : Forall (fun q => 0 < q)
                         (sk_tx_plan (connected [] false [] [2; 1])))
    by (repeat constructor).
  assert (Hfit : len [x01; x02; x03; x04; x05]
                 < 256 ^ chan_prefix_size
                           (ClientSide (demo_client (connected [] false [] [2; 1]))))
    by (vm_compute; reflexivity).
  split; [simpl; lia|]. split; [reflexivity|]. split; [exact Hfit|].
  split; [reflexivity|]. split; [reflexivity|]. split; [exact Hplan|].
  split; [reflexivity|]. split; [reflexivity|]. split; [reflexivity|].
  apply (send_then_recv_roundtrip
           (ClientSide (demo_client (connected [] false [] [2; 1])))
           (ServerSide (demo_server (connected [] false [1; 2] [])))
           (connected [] false [] [2; 1])
           (connected [] false [1; 2] [])
           [x01; x02; x03; x04; x05]);
    try reflexivity; try assumption.
  simpl; lia.
Defined.

(** The scenario of the specification, received: the frame
    [05 01 02 03 04 05] arrives cut into chunks of one and two bytes. *)
Example recv_sample :
  fst (TCPServer.recv
         (demo_server
            (connected [x05; x01; x02; x03; x04; x05] false [1; 2; 1] [])))
  = Done [x01; x02; x03; x04; x05].
Proof. reflexivity. Qed.

(** C2.  On either endpoint, with a prefix width [W >= 0], [send] of a
    message of [256^W] bytes or more raises the [OverflowError] of
    [to_bytes] (the message does not fit the prefix) and leaves the
    endpoint, its sockets, their logs and their sent bytes exactly as
    they were: no [sock.send] is issued. *)
Theorem send_too_large_no_write (ch : channel) (m : bytes) :
  0 <= chan_prefix_size ch ->
  256 ^ chan_prefix_size ch <= len m ->
  chan_send ch m = (Raised (OverflowError "int too big to convert"), ch) /\
  chan_stream (snd (chan_send ch m)) = chan_stream ch.
Proof.
  intros Hw Hbig.
  assert (E : chan_send ch m
              = (Raised (OverflowError "int too big to convert"), ch)).
  { destruct ch as [s|c]; simpl in *.
    - unfold TCPServer.send, bind, pure.
      rewrite (int_to_bytes_overflow _ _ Hw Hbig). reflexivity.
    - unfold TCPClient.send, bind, pure.
      rewrite (int_to_bytes_overflow _ _ Hw Hbig). reflexivity. }
  rewrite E. split; reflexivity.
Qed.

Lemma send_too_large_no_write_witness :
  0 <= chan_prefix_size (ServerSide (demo_server (connected [] false [] []))) /\
  256 ^ chan_prefix_size (ServerSide (demo_server (connected [] false [] [])))
    <= len (repeat x00 256) /\
  chan_send (ServerSide (demo_server (connected [] false [] [])))
            (repeat x00 256)
  = (Raised (OverflowError "int too big to convert"),
     ServerSide (demo_server (connected [] false [] []))) /\
  chan_stream
    (snd (chan_send (ServerSide (demo_server (connected [] false [] [])))
                    (repeat x00 256)))
  = chan_stream (ServerSide (demo_server (connected [] false [] []))).
Proof.
  split; [simpl; lia|]. split; [vm_compute; discriminate|].
  apply (send_too_large_no_write
           (ServerSide (demo_server (connected [] false [] [])))
           (repeat x00 256)).
  - simpl; lia.
  - vm_compute; discriminate.
Defined.

(** C3.  For every [n >= 0] and every connected socket, the [sock.recv]
    calls issued by [recv_all(sock, n)] each ask for the bytes still
    missing capped at 2048 (so never more than 2048), the chunks they
    return are consecutive pieces of what the peer sent, in arrival order,
    and when [recv_all] returns, its result is the concatenation of those
    chunks and has exactly [n] bytes.  It does return, with the first [n]
    bytes of the stream, whenever the peer has sent that many. *)
Theorem recv_all_reads_exactly (sock : socket) (n : Z) :
  0 <= n -> sk_state sock = Connected ->
  exists calls,
    sk_log (snd (recv_all sock n)) = sk_log sock ++ recv_events calls /\
    sk_rx sock = received calls ++ sk_rx (snd (recv_all sock n)) /\
    reads_bounded n calls /\
    Forall (fun c => fst c <= 2048) calls /\
    (forall buf, fst (recv_all sock n) = Done buf ->
                 buf = received calls /\ len buf = n) /\
    (n <= len (sk_rx sock) ->
     fst (recv_all sock n) = Done (firstn (Z.to_nat n) (sk_rx sock))).
Proof.
  intros Hn Hst.
  destruct (recv_all sock n) as [r sock'] eqn:E.
  destruct (recv_all_spec sock n r sock' Hst E)
    as (calls & _ & _ & _ & Hlog & Hrx & Hrb & Hr).
  exists calls. simpl. repeat split; try assumption.
  - eapply reads_bounded_cap; eassumption.
  - subst r. destruct Hr as (Hbuf & _). exact Hbuf.
  - subst r. destruct Hr as (-> & Hl & _). lia.
  - intros Hav.
    pose proof (recv_all_outcome sock n Hn Hst) as (_ & _ & Hout).
    destruct (Z.leb_spec n (len (sk_rx sock))); [|lia].
    rewrite E in Hout. apply Hout.
Qed.

Lemma recv_all_reads_exactly_witness :
  0 <= 3 /\
  sk_state (connected [x0a; x0b; x0c; x0d] false [1; 5] []) = Connected /\
  exists calls,
    sk_log (snd (recv_all (connected [x0a; x0b; x0c; x0d] false [1; 5] []) 3))
    = sk_log (connected [x0a; x0b; x0c; x0d] false [1; 5] [])
      ++ recv_events calls /\
    sk_rx (connected [x0a; x0b; x0c; x0d] false [1; 5] [])
    = received calls
      ++ sk_rx (snd (recv_all (connected [x0a; x0b; x0c; x0d] false [1; 5] []) 3)) /\
    reads_bounded 3 calls /\
    Forall (fun c => fst c <= 2048) calls /\
    (forall buf,
        fst (recv_all (connected [x0a; x0b; x0c; x0d] false [1; 5] []) 3)
        = Done buf ->
        buf = received calls /\ len buf = 3) /\
    (3 <= len (sk_rx (connected [x0a; x0b; x0c; x0d] false [1; 5] [])) ->
     fst (recv_all (connected [x0a; x0b; x0c; x0d] false [1; 5] []) 3)
     = Done (firstn (Z.to_nat 3)
               (sk_rx (connected [x0a; x0b; x0c; x0d] false [1; 5] [])))).
Proof.
  split; [lia|]. split; [reflexivity|].
  apply (recv_all_reads_exactly
           (connected [x0a; x0b; x0c; x0d] false [1; 5] []) 3);
    [lia | reflexivity].
Defined.

(** What the run of the sample looks like. *)
Example recv_all_sample :
  recv_all (connected [x0a; x0b; x0c; x0d] false [1; 5] []) 3 =
  (Done [x0a; x0b; x0c],
   mkSocket Connected None [x0d] false [] [] [] []
            [EvRecv 3 [x0a]; EvRecv 2 [x0b; x0c]]).
Proof. reflexivity. Qed.

(** C4.  On either endpoint with a connected stream: when the peer has
    sent the length prefix and less than the announced payload and has
    then closed, [recv] raises the broken-connection [RuntimeError]; once
    the peer has closed, [recv] never waits forever; and whenever [recv]
    returns, the buffer has exactly the length the prefix announced and
    is what followed the prefix on the stream. *)
Theorem recv_breaks_when_peer_closes_early (ch : channel) (c : socket) :
  chan_stream ch = Some c -> sk_state c = Connected ->
  0 <= chan_prefix_size ch ->
  (forall prefix part,
      sk_rx c = prefix ++ part ->
      len prefix = chan_prefix_size ch ->
      len part < int_from_bytes prefix ->
      sk_rx_eof c = true ->
      fst (chan_recv ch) = Raised broken_recv) /\
  (sk_rx_eof c = true -> fst (chan_recv ch) <> Blocked) /\
  (forall buf,
      fst (chan_recv ch) = Done buf ->
      exists prefix rest,
        sk_rx c = prefix ++ buf ++ rest /\
        len prefix = chan_prefix_size ch /\
        len buf = int_from_bytes prefix).
Proof.
  intros Hc Hst Hw.
  pose proof (chan_recv_outcome ch c Hc Hst Hw) as Hout.
  set (w := chan_prefix_size ch) in *.
  split; [|split].
  - intros prefix part Hrx Hlen Hshort Heof.
    assert (Hk : Z.to_nat w = List.length prefix) by (unfold len in Hlen; lia).
    rewrite Hout, Hrx, Hk, firstn_exact, skipn_exact, len_app, Heof.
    destruct (Z.leb_spec w (len prefix + len part));
      [|pose proof (len_nonneg part); lia].
    destruct (Z.leb_spec (int_from_bytes prefix) (len part)); [lia|].
    reflexivity.
  - intros Heof. rewrite Hout, Heof.
    repeat match goal with |- context [if ?b then _ else _] => destruct b end;
      discriminate.
  - intros buf Hbuf. rewrite Hout in Hbuf.
    destruct (Z.leb_spec w (len (sk_rx c))) as [Hwl|Hwl];
      [|destruct (sk_rx_eof c); discriminate].
    set (prefix := firstn (Z.to_nat w) (sk_rx c)) in *.
    set (rest := skipn (Z.to_nat w) (sk_rx c)) in *.
    destruct (Z.leb_spec (int_from_bytes prefix) (len rest)) as [Hnl|Hnl];
      [|destruct (sk_rx_eof c); discriminate].
    inversion Hbuf; subst buf; clear Hbuf.
    exists prefix, (skipn (Z.to_nat (int_from_bytes prefix)) rest).
    repeat split.
    + rewrite firstn_skipn. unfold prefix, rest.
      symmetry. apply firstn_skipn.
    + unfold prefix, len in *. rewrite length_firstn. lia.
    + pose proof (int_from_bytes_bound prefix).
      unfold len in *. rewrite length_firstn. lia.
Qed.

Lemma recv_breaks_when_peer_closes_early_witness :
  (chan_stream (ServerSide (demo_server (connected [x03; x0a] true [] [])))
   = Some (connected [x03; x0a] true [] []) /\
   sk_state (connected [x03; x0a] true [] []) = Connected /\
   0 <= chan_prefix_size
          (ServerSide (demo_server (connected [x03; x0a] true [] []))) /\
   sk_rx (connected [x03; x0a] true [] []) = [x03] ++ [x0a] /\
   len [x03]
   = chan_prefix_size
       (ServerSide (demo_server (connected [x03; x0a] true [] []))) /\
   len [x0a] < int_from_bytes [x03] /\
   sk_rx_eof (connected [x03; x0a] true [] []) = true /\
   fst (chan_recv (ServerSide (demo_server (connected [x03; x0a] true [] []))))
   = Raised broken_recv /\
   fst (chan_recv (ServerSide (demo_server (connected [x03; x0a] true [] []))))
   <> Blocked) /\
  (chan_stream (ClientSide (demo_client (connected [x02; x0a; x0b; x0c] true [1] [])))
   = Some (connected [x02; x0a; x0b; x0c] true [1] []) /\
   fst (chan_recv
          (ClientSide (demo_client (connected [x02; x0a; x0b; x0c] true [1] []))))
   = Done [x0a; x0b] /\
   exists prefix rest,
     sk_rx (connected [x02; x0a; x0b; x0c] true [1] [])
     = prefix ++ [x0a; x0b] ++ rest /\
     len prefix
     = chan_prefix_size
         (ClientSide (demo_client (connected [x02; x0a; x0b; x0c] true [1] []))) /\
     len [x0a; x0b] = int_from_bytes prefix).
Proof.
  split.
  - destruct (recv_breaks_when_peer_closes_early
                (ServerSide (demo_server (connected [x03; x0a] true [] [])))
                (connected [x03; x0a] true [] [])
                eq_refl eq_refl ltac:(simpl; lia)) as (Hbreak & Hnb & _).
    assert (Hshort : len [x0a] < int_from_bytes [x03])
      by (vm_compute; reflexivity).
    split; [reflexivity|]. split; [reflexivity|]. split; [simpl; lia|].
    split; [reflexivity|]. split; [reflexivity|]. split; [exact Hshort|].
    split; [reflexivity|]. split.
    + apply (Hbreak [x03] [x0a]); [reflexivity | reflexivity | exact Hshort
                                   | reflexivity].
    + apply Hnb. reflexivity.
  - destruct (recv_breaks_when_peer_closes_early
                (ClientSide (demo_client (connected [x02; x0a; x0b; x0c] true [1] [])))
                (connected [x02; x0a; x0b; x0c] true [1] [])
                eq_refl eq_refl ltac:(simpl; lia)) as (_ & _ & Hexact).
    split; [reflexivity|]. split; [reflexivity|].
    apply Hexact. reflexivity.
Defined.

(** C5.  On a connected socket [send_all(sock, data)] passes each
    [sock.send] the suffix not yet taken; it raises the broken-connection
    [RuntimeError] exactly when a call reports zero bytes, that call is
    then the last one and fewer than [len(data)] bytes were taken; and it
    returns only after calls that each took at least one byte and
    together took every byte of [data]. *)
Theorem send_all_breaks_or_completes (sock : socket) (data : bytes) :
  sk_state sock = Connected ->
  exists calls,
    sk_log (snd (send_all sock data)) = sk_log sock ++ send_events calls /\
    writes_follow data 0 calls /\
    sk_tx (snd (send_all sock data)) =
      sk_tx sock ++ firstn (Z.to_nat (taken calls)) data /\
    (Exists (fun c => snd c = 0) calls <->
     fst (send_all sock data) = Raised broken_send) /\
    match fst (send_all sock data) with
    | Done _ =>
        Forall (fun c => 0 < snd c) calls /\
        taken calls = len data /\
        sk_tx (snd (send_all sock data)) = sk_tx sock ++ data
    | Raised e =>
        e = broken_send /\
        taken calls < len data /\
        exists calls0 buf,
          calls = calls0 ++ [(buf, 0)] /\ Forall (fun c => 0 < snd c) calls0
    | Blocked => False
    end.
Proof.
  intros Hst.
  destruct (send_all sock data) as [r sock'] eqn:E. unfold send_all in E.
  apply (send_all_loop_spec (Z.to_nat (len data - 0))) in E;
    [|lia|pose proof (len_nonneg data); lia|assumption].
  destruct E as (calls & _ & _ & _ & _ & Hlog & Hwf & Htx & Hnn & Hr).
  exists calls. simpl. unfold slice_from in Htx. simpl in Htx.
  repeat split; try assumption.
  - intros Hex. destruct r as [u|e|]; [|destruct Hr; congruence|contradiction].
    destruct Hr as [_ Hall]. apply Exists_exists in Hex.
    destruct Hex as (c & Hin & Hz).
    rewrite Forall_forall in Hall. specialize (Hall c Hin). lia.
  - intros ->. destruct Hr as (_ & _ & calls0 & buf & -> & _).
    apply Exists_app. right. constructor. reflexivity.
  - destruct r as [u|e|]; [| |contradiction].
    + destruct Hr as [Hsum Hall]. repeat split; try assumption; try lia.
      rewrite Htx. f_equal. apply firstn_all2. unfold len in Hsum. lia.
    + destruct Hr as (He & Hsum & Hlast). repeat split; try assumption; lia.
Qed.

Lemma send_all_breaks_or_completes_witness :
  sk_state (connected [] false [] [2; 0]) = Connected /\
  exists calls,
    sk_log (snd (send_all (connected [] false [] [2; 0]) [x01; x02; x03]))
    = sk_log (connected [] false [] [2; 0]) ++ send_events calls /\
    writes_follow [x01; x02; x03] 0 calls /\
    sk_tx (snd (send_all (connected [] false [] [2; 0]) [x01; x02; x03])) =
      sk_tx (connected [] false [] [2; 0])
      ++ firstn (Z.to_nat (taken calls)) [x01; x02; x03] /\
    (Exists (fun c => snd c = 0) calls <->
     fst (send_all (connected [] false [] [2; 0]) [x01; x02; x03])
     = Raised broken_send) /\
    match fst (send_all (connected [] false [] [2; 0]) [x01; x02; x03]) with
    | Done _ =>
        Forall (fun c => 0 < snd c) calls /\
        taken calls = len [x01; x02; x03] /\
        sk_tx (snd (send_all (connected [] false [] [2; 0]) [x01; x02; x03]))
        = sk_tx (connected [] false [] [2; 0]) ++ [x01; x02; x03]
    | Raised e =>
        e = broken_send /\
        taken calls < len [x01; x02; x03] /\
        exists calls0 buf,
          calls = calls0 ++ [(buf, 0)] /\ Forall (fun c => 0 < snd c) calls0
    | Blocked => False
    end.
Proof.
  split; [reflexivity|].
  apply (send_all_breaks_or_completes
           (connected [] false [] [2; 0]) [x01; x02; x03]).
  reflexivity.
Defined.

(** The sample run: two bytes taken, then a call that took none. *)
Example send_all_sample :
  send_all (connected [] false [] [2; 0]) [x01; x02; x03] =
  (Raised broken_send,
   mkSocket Connected None [] false [] [x01; x02] [] []
            [EvSend [x01; x02; x03] 2; EvSend [x03] 0]).
Proof. reflexivity. Qed.

(** C6.  On either endpoint with a stream socket, for a message whose
    length fits the prefix, [send] hands [send_all] one buffer: the
    [prefix_size] bytes whose big-endian value is [len(m)] (byte [i] is
    the base-256 digit of weight [256^(prefix_size-1-i)]), followed by
    [m].  Every [sock.send] is passed a suffix of that buffer, and when
    [send] returns the transport has taken exactly that buffer.  With
    [prefix_size = 1] and [m = 01 02 03 04 05] the buffer is
    [05 01 02 03 04 05]. *)
Theorem send_emits_prefix_then_message (ch : channel) (c : socket) (m : bytes) :
  chan_stream ch = Some c ->
  0 <= chan_prefix_size ch ->
  len m < 256 ^ chan_prefix_size ch ->
  exists prefix,
    int_to_bytes (len m) (chan_prefix_size ch) = Done prefix /\
    len prefix = chan_prefix_size ch /\
    int_from_bytes prefix = len m /\
    (forall i, (i < Z.to_nat (chan_prefix_size ch))%nat ->
       nth i prefix x00
       = byte_of_Z
           (len m / 256 ^ Z.of_nat (Z.to_nat (chan_prefix_size ch) - 1 - i))) /\
    chan_send ch m =
      (fst (send_all c (prefix ++ m)),
       chan_with_stream ch (snd (send_all c (prefix ++ m)))) /\
    (sk_state c = Connected ->
     exists calls,
       sk_log (snd (send_all c (prefix ++ m)))
       = sk_log c ++ send_events calls /\
       writes_follow (prefix ++ m) 0 calls /\
       (fst (chan_send ch m) = Done tt ->
        sk_tx (snd (send_all c (prefix ++ m))) = sk_tx c ++ prefix ++ m)) /\
    (chan_prefix_size ch = 1 -> m = [x01; x02; x03; x04; x05] ->
     prefix ++ m = [x05; x01; x02; x03; x04; x05]).
Proof.
  intros Hc Hw Hfit.
  destruct (int_to_bytes_fits (len m) (chan_prefix_size ch) Hw
              ltac:(pose proof (len_nonneg m); lia))
    as (prefix & Henc & Hlen & Hdec & Hdig).
  exists prefix.
  assert (Hsend : chan_send ch m =
                  (fst (send_all c (prefix ++ m)),
                   chan_with_stream ch (snd (send_all c (prefix ++ m))))).
  { rewrite (chan_send_stream ch c m Hc), Henc.
    destruct (send_all c (prefix ++ m)); reflexivity. }
  repeat split; try assumption.
  - intros i Hi. rewrite Hdig. apply be_bytes_nth. exact Hi.
  - intros Hst.
    destruct (send_all_run c (prefix ++ m) Hst)
      as (calls & Hlog & Hwf & Hdone).
    exists calls. repeat split; try assumption.
    rewrite Hsend. simpl. exact Hdone.
  - intros H1 ->. rewrite H1 in Henc. vm_compute in Henc.
    inversion Henc. reflexivity.
Qed.

Lemma send_emits_prefix_then_message_witness :
  chan_stream (ClientSide (demo_client (connected [] false [] [4; 1])))
  = Some (connected [] false [] [4; 1]) /\
  0 <= chan_prefix_size (ClientSide (demo_client (connected [] false [] [4; 1]))) /\
  len [x01; x02; x03; x04; x05]
  < 256 ^ chan_prefix_size (ClientSide (demo_client (connected [] false [] [4; 1]))) /\
  exists prefix,
    int_to_bytes (len [x01; x02; x03; x04; x05])
      (chan_prefix_size (ClientSide (demo_client (connected [] false [] [4; 1]))))
    = Done prefix /\
    len prefix
    = chan_prefix_size (ClientSide (demo_client (connected [] false [] [4; 1]))) /\
    int_from_bytes prefix = len [x01; x02; x03; x04; x05] /\
    (forall i,
        Nat.lt i
          (Z.to_nat
             (chan_prefix_size
                (ClientSide (demo_client (connected [] false [] [4; 1]))))) ->
        nth i prefix x00
        = byte_of_Z
            (len [x01; x02; x03; x04; x05]
             / 256 ^ Z.of_nat
                       (Z.to_nat
                          (chan_prefix_size
                             (ClientSide
                                (demo_client (connected [] false [] [4; 1]))))
                        - 1 - i))) /\
    chan_send (ClientSide (demo_client (connected [] false [] [4; 1])))
              [x01; x02; x03; x04; x05] =
      (fst (send_all (connected [] false [] [4; 1])
                     (prefix ++ [x01; x02; x03; x04; x05])),
       chan_with_stream
         (ClientSide (demo_client (connected [] false [] [4; 1])))
         (snd (send_all (connected [] false [] [4; 1])
                        (prefix ++ [x01; x02; x03; x04; x05])))) /\
    (sk_state (connected [] false [] [4; 1]) = Connected ->
     exists calls,
       sk_log (snd (send_all (connected [] false [] [4; 1])
                             (prefix ++ [x01; x02; x03; x04; x05])))
       = sk_log (connected [] false [] [4; 1]) ++ send_events calls /\
       writes_follow (prefix ++ [x01; x02; x03; x04; x05]) 0 calls /\
       (fst (chan_send (ClientSide (demo_client (connected [] false [] [4; 1])))
                       [x01; x02; x03; x04; x05]) = Done tt ->
        sk_tx (snd (send_all (connected [] false [] [4; 1])
                             (prefix ++ [x01; x02; x03; x04; x05])))
        = sk_tx (connected [] false [] [4; 1])
          ++ prefix ++ [x01; x02; x03; x04; x05])) /\
    (chan_prefix_size (ClientSide (demo_client (connected [] false [] [4; 1]))) = 1 ->
     [x01; x02; x03; x04; x05] = [x01; x02; x03; x04; x05] ->
     prefix ++ [x01; x02; x03; x04; x05] = [x05; x01; x02; x03; x04; x05]).
Proof.
  split; [reflexivity|]. split; [simpl; lia|]. split; [vm_compute; reflexivity|].
  apply (send_emits_prefix_then_message
           (ClientSide (demo_client (connected [] false [] [4; 1])))
           (connected [] false [] [4; 1])
           [x01; x02; x03; x04; x05]).
  - reflexivity.
  - simpl; lia.
  - vm_compute; reflexivity.
Defined.

(** The scenario of the specification, run on both classes: the
    transport takes four bytes, then one, then the rest. *)
Example send_sample_client :
  TCPClient.send (demo_client (connected [] false [] [4; 1]))
                 [x01; x02; x03; x04; x05] =
  (Done tt,
   demo_client
     (mkSocket Connected None [] false [] [x05; x01; x02; x03; x04; x05] [] []
        [EvSend [x05; x01; x02; x03; x04; x05] 4;
         EvSend [x04; x05] 1;
         EvSend [x05] 1])).
Proof. reflexivity. Qed.

Example send_sample_server :
  fst (TCPServer.send (demo_server (connected [] false [] []))
                      [x01; x02; x03; x04; x05]) = Done tt /\
  option_map sk_tx
    (TCPServer.conn
       (snd (TCPServer.send (demo_server (connected [] false [] []))
                            [x01; x02; x03; x04; x05])))
  = Some [x05; x01; x02; x03; x04; x05].
Proof. split; reflexivity. Qed.

(** C7, as stated: one of the two classes would default the prefix width
    to 4 and the other to 1.  Neither constructor defaults it to 4. *)
Lemma prefix_default_never_four :
  ~ ((TCPServer.prefix_size (TCPServer.init demo_host demo_port None None) = 4 /\
      TCPClient.prefix_size (TCPClient.init demo_host demo_port None) = 1) \/
     (TCPServer.prefix_size (TCPServer.init demo_host demo_port None None) = 1 /\
      TCPClient.prefix_size (TCPClient.init demo_host demo_port None) = 4)).
Proof.
  simpl. intros [[H _]|[_ H]]; discriminate H.
Qed.

(** C7, amended.  When [prefix_size] is not given, [TCPServer] and
    [TCPClient] fall back to one and the same width, so two endpoints
    built with the defaults agree; a width that is given is kept as it
    is by both. *)
Theorem prefix_default_agrees (h h' : string) (p p' : Z) (b : option Z) (w : Z) :
  TCPServer.prefix_size (TCPServer.init h p b None)
  = TCPClient.prefix_size (TCPClient.init h' p' None) /\
  TCPServer.prefix_size (TCPServer.init h p b (Some w)) = w /\
  TCPClient.prefix_size (TCPClient.init h' p' (Some w)) = w.
Proof. repeat split; reflexivity. Qed.

(** The width both constructors fall back to is one byte; the 4 among
    the defaults of [TCPServer.__init__] is the listen backlog. *)
Example prefix_default_in_code :
  TCPServer.prefix_size (TCPServer.init demo_host demo_port None None) = 1 /\
  TCPClient.prefix_size (TCPClient.init demo_host demo_port None) = 1 /\
  TCPServer.backlog (TCPServer.init demo_host demo_port None None) = 4.
Proof. repeat split; reflexivity. Qed.

(** C8, as stated: after [close()], every [send] would fail with the
    closed-channel error.  A message too long for the prefix still fails
    in [to_bytes], before the closed socket is ever touched. *)
Lemma closed_send_too_large_overflows :
  fst (chan_send
         (snd (chan_close (ClientSide (demo_client (connected [] false [] [])))))
         (repeat x00 256))
  = Raised (OverflowError "int too big to convert") /\
  fst (chan_send
         (snd (chan_close (ClientSide (demo_client (connected [] false [] [])))))
         (repeat x00 256))
  <> Raised ChannelClosed.
Proof.
  split; [vm_compute; reflexivity | vm_compute; discriminate].
Qed.

(** Calls that never reach the socket do not notice that it is closed:
    with a prefix width of zero [recv] returns the empty message. *)
Example closed_recv_zero_width :
  fst (TCPClient.recv
         (snd (TCPClient.close
                 (TCPClient.mk demo_host demo_port 0 (connected [] false [] [])))))
  = Done [].
Proof. reflexivity. Qed.

(** C8, amended.  On a framed channel, that is an endpoint of either
    class that holds a stream socket (a [TCPClient], or a [TCPServer]
    whose [register()] has returned), with a prefix width in [1,8]:
    [close()] returns, and from then on [recv] and every [send] of a
    message that fits the prefix raise the closed-socket [OSError]
    without changing anything, every [send] of a message of
    [256^prefix_size] bytes or more raises the [OverflowError] of
    [to_bytes] instead, before the socket is touched, and closing again
    is a no-op, so the channel stays closed. *)
Theorem closed_channel_rejects_calls (ch : channel) (c : socket) :
  chan_stream ch = Some c ->
  1 <= chan_prefix_size ch <= 8 ->
  fst (chan_close ch) = Done tt /\
  chan_recv (snd (chan_close ch))
  = (Raised ChannelClosed, snd (chan_close ch)) /\
  (forall m, len m < 256 ^ chan_prefix_size ch ->
             chan_send (snd (chan_close ch)) m
             = (Raised ChannelClosed, snd (chan_close ch))) /\
  (forall m, 256 ^ chan_prefix_size ch <= len m ->
             chan_send (snd (chan_close ch)) m
             = (Raised (OverflowError "int too big to convert"),
                snd (chan_close ch))) /\
  chan_close (snd (chan_close ch)) = (Done tt, snd (chan_close ch)).
Proof.
  intros Hc Hw.
  destruct (chan_close_stream ch c Hc) as (Hdone & Hc' & Hw').
  pose proof (socket_close_state c) as Hst.
  set (ch' := snd (chan_close ch)) in *.
  set (c' := snd (socket_close c)) in *.
  split; [assumption|]. split; [|split; [|split]].
  - rewrite (chan_recv_stream ch' c' Hc'), Hw'.
    rewrite (recv_all_closed c' _ Hst (proj1 Hw)).
    rewrite (chan_with_stream_same ch' c' Hc'). reflexivity.
  - intros m Hfit.
    destruct (int_to_bytes_fits (len m) (chan_prefix_size ch) ltac:(lia)
                ltac:(pose proof (len_nonneg m); lia))
      as (prefix & Henc & Hlen & _ & _).
    rewrite (chan_send_stream ch' c' m Hc'), Hw', Henc.
    rewrite (send_all_closed c' (prefix ++ m) Hst).
    + rewrite (chan_with_stream_same ch' c' Hc'). reflexivity.
    + destruct prefix; [unfold len in Hlen; simpl in Hlen; lia | discriminate].
  - intros m Hbig.
    rewrite (chan_send_stream ch' c' m Hc'), Hw'.
    rewrite (int_to_bytes_overflow (len m) (chan_prefix_size ch)
               ltac:(lia) Hbig).
    reflexivity.
  - apply chan_close_again. subst ch'. apply (chan_close_closes ch c Hc).
Qed.

Lemma closed_channel_rejects_calls_witness :
  chan_stream (ServerSide (demo_server (connected [x01; x0a] false [] [])))
  = Some (connected [x01; x0a] false [] []) /\
  1 <= chan_prefix_size
         (ServerSide (demo_server (connected [x01; x0a] false [] []))) <= 8 /\
  len [x01; x02]
  < 256 ^ chan_prefix_size
            (ServerSide (demo_server (connected [x01; x0a] false [] []))) /\
  256 ^ chan_prefix_size
          (ServerSide (demo_server (connected [x01; x0a] false [] [])))
  <= len (repeat x00 256) /\
  fst (chan_close (ServerSide (demo_server (connected [x01; x0a] false [] []))))
  = Done tt /\
  chan_recv
    (snd (chan_close (ServerSide (demo_server (connected [x01; x0a] false [] [])))))
  = (Raised ChannelClosed,
     snd (chan_close (ServerSide (demo_server (connected [x01; x0a] false [] []))))) /\
  chan_send
    (snd (chan_close (ServerSide (demo_server (connected [x01; x0a] false [] [])))))
    [x01; x02]
  = (Raised ChannelClosed,
     snd (chan_close (ServerSide (demo_server (connected [x01; x0a] false [] []))))) /\
  chan_send
    (snd (chan_close (ServerSide (demo_server (connected [x01; x0a] false [] [])))))
    (repeat x00 256)
  = (Raised (OverflowError "int too big to convert"),
     snd (chan_close (ServerSide (demo_server (connected [x01; x0a] false [] []))))) /\
  chan_close
    (snd (chan_close (ServerSide (demo_server (connected [x01; x0a] false [] [])))))
  = (Done tt,
     snd (chan_close (ServerSide (demo_server (connected [x01; x0a] false [] []))))).
Proof.
  assert (Hfit : len [x01; x02]
                 < 256 ^ chan_prefix_size
                           (ServerSide
                              (demo_server (connected [x01; x0a] false [] []))))
    by (vm_compute; reflexivity).
  assert (Hbig : 256 ^ chan_prefix_size
                         (ServerSide
                            (demo_server (connected [x01; x0a] false [] [])))
                 <= len (repeat x00 256))
    by (vm_compute; discriminate).
  destruct (closed_channel_rejects_calls
              (ServerSide (demo_server (connected [x01; x0a] false [] [])))
              (connected [x01; x0a] false [] [])
              eq_refl ltac:(simpl; lia))
    as (Hdone & Hrecv & Hsend & Hover & Hagain).
  split; [reflexivity|]. split; [simpl; lia|]. split; [exact Hfit|].
  split; [exact Hbig|]. split; [exact Hdone|]. split; [exact Hrecv|].
  split; [exact (Hsend _ Hfit)|]. split; [exact (Hover _ Hbig) | exact Hagain].
Defined.

(** C9.  Once [register()] has returned, whatever happens next to the
    server (peers trying to connect, further calls of [register], [send],
    [recv] or [close], in any order): [self.conn] stays the connection of
    the first peer, the listening socket hands out no further
    connection, every later peer is at most waiting in its queue, and
    another [register()] raises. *)
Theorem listener_serves_one_connection
  (self self1 : TCPServer.t) (acts : list action) :
  TCPServer.register self = (Done tt, self1) ->
  exists a0 c0 c queued,
    TCPServer.conn self1 = Some c0 /\ sk_remote c0 = Some a0 /\
    TCPServer.conn (run self1 acts) = Some c /\ sk_remote c = Some a0 /\
    TCPServer.addr (run self1 acts) = Some a0 /\
    accepted (TCPServer.sock (run self1 acts))
    = accepted (TCPServer.sock self1) /\
    sk_pending (TCPServer.sock (run self1 acts))
    = sk_pending (TCPServer.sock self1) ++ queued /\
    incl queued (attempts acts) /\
    exists e, fst (TCPServer.register (run self1 acts)) = Raised (OSError e).
Proof.
  intros Hreg.
  destruct (register_done self self1 Hreg)
    as (p & rest & _ & (c0 & Hc0 & Hr0) & Haddr & _ & _ & Hst).
  assert (Hinv : consumed (p_addr p) (accepted (TCPServer.sock self1)) self1).
  { repeat split; eauto. }
  destruct (run_consumed _ _ acts self1 Hinv)
    as (((c & Hc & Hr) & Ha & Hacc & Hstate) & queued & Hq & Hin).
  exists (p_addr p), c0, c, queued.
  repeat split; try assumption.
  apply (register_again (run self1 acts) Hstate).
Qed.

Lemma listener_serves_one_connection_witness :
  TCPServer.register awaited_server = (Done tt, registered_server) /\
  exists a0 c0 c queued,
    TCPServer.conn registered_server = Some c0 /\ sk_remote c0 = Some a0 /\
    TCPServer.conn (run registered_server busy_afternoon) = Some c /\
    sk_remote c = Some a0 /\
    TCPServer.addr (run registered_server busy_afternoon) = Some a0 /\
    accepted (TCPServer.sock (run registered_server busy_afternoon))
    = accepted (TCPServer.sock registered_server) /\
    sk_pending (TCPServer.sock (run registered_server busy_afternoon))
    = sk_pending (TCPServer.sock registered_server) ++ queued /\
    incl queued (attempts busy_afternoon) /\
    exists e,
      fst (TCPServer.register (run registered_server busy_afternoon))
      = Raised (OSError e).
Proof.
  split; [reflexivity|].
  apply (listener_serves_one_connection
           awaited_server registered_server busy_afternoon).
  reflexivity.
Defined.

(** The sample run, spelled out: the two later peers wait in the queue of
    the listening socket, the connection is still the first peer's, and
    the one [accept] in the log is the first. *)
Example busy_afternoon_run :
  option_map sk_remote (TCPServer.conn (run registered_server busy_afternoon))
  = Some (Some ("10.0.0.1"%string, 40001)) /\
  sk_pending (TCPServer.sock (run registered_server busy_afternoon))
  = [peer2; peer3] /\
  accepted (TCPServer.sock (run registered_server busy_afternoon))
  = [("10.0.0.1"%string, 40001)] /\
  fst (TCPServer.register (run registered_server busy_afternoon))
  = Raised (OSError EBADF).
Proof. repeat split; reflexivity. Qed.

(** C10.  [TCPServer.close()] on a server whose [conn] is still [None]
    returns normally: nothing is done for the connection, and the
    listening socket is closed. *)
Theorem close_before_accept (self : TCPServer.t) :
  TCPServer.conn self = None ->
  fst (TCPServer.close self) = Done tt /\
  TCPServer.conn (snd (TCPServer.close self)) = None /\
  TCPServer.sock (snd (TCPServer.close self))
  = snd (socket_close (TCPServer.sock self)) /\
  sk_state (TCPServer.sock (snd (TCPServer.close self))) = Closed.
Proof.
  intros Hc.
  assert (E : TCPServer.close self =
              (Done tt,
               TCPServer.set_sock self (snd (socket_close (TCPServer.sock self))))).
  { unfold TCPServer.close, bind, pure, TCPServer.on_sock. rewrite Hc.
    unfold socket_close. destruct (sk_state (TCPServer.sock self)); reflexivity. }
  rewrite E. simpl. repeat split; try assumption.
  apply socket_close_state.
Qed.

Lemma close_before_accept_witness :
  TCPServer.conn (TCPServer.init demo_host demo_port None None) = None /\
  fst (TCPServer.close (TCPServer.init demo_host demo_port None None))
  = Done tt /\
  TCPServer.conn
    (snd (TCPServer.close (TCPServer.init demo_host demo_port None None)))
  = None /\
  TCPServer.sock
    (snd (TCPServer.close (TCPServer.init demo_host demo_port None None)))
  = snd (socket_close
           (TCPServer.sock (TCPServer.init demo_host demo_port None None))) /\
  sk_state
    (TCPServer.sock
       (snd (TCPServer.close (TCPServer.init demo_host demo_port None None))))
  = Closed.
Proof.
  split; [reflexivity|].
  apply (close_before_accept (TCPServer.init demo_host demo_port None None)).
  reflexivity.
Defined.

(** The only call that reaches a socket is the [close] of the listening
    socket. *)
Example close_fresh_server :
  TCPServer.close (TCPServer.init demo_host demo_port None None) =
  (Done tt,
   TCPServer.mk demo_host demo_port 4 1
     (mkSocket Closed None [] false [] [] [] [] [EvClose]) None None).
Proof. reflexivity. Qed.

(** * Beyond the claims: the transfer loops *)

Lemma len_recv_events calls : len (recv_events calls) = len calls.
Proof. unfold len, recv_events. rewrite length_map. reflexivity. Qed.

Lemma len_send_events calls : len (send_events calls) = len calls.
Proof. unfold len, send_events. rewrite length_map. reflexivity. Qed.

Lemma taken_app calls1 calls2 :
  taken (calls1 ++ calls2) = taken calls1 + taken calls2.
Proof.
  unfold taken. induction calls1 as [|c calls1 IH]; simpl; [reflexivity|].
  rewrite IH. lia.
Qed.

Lemma taken_positive calls :
  Forall (fun c => 0 < snd c) calls -> len calls <= taken calls.
Proof.
  unfold taken, len. induction 1 as [|c calls Hc _ IH]; simpl List.length;
    simpl map; simpl fold_right; lia.
Qed.

(** X1.  A transfer of nothing never reaches the socket: [recv_all] with
    a size of zero or less returns [b''], and [send_all] of an empty
    buffer returns, on any socket, closed or unconnected ones included,
    and the socket is left as it was. *)
Theorem empty_transfers_skip_socket (sock : socket) (size : Z) :
  size <= 0 ->
  recv_all sock size = (Done [], sock) /\
  send_all sock [] = (Done tt, sock).
Proof.
  intros Hsize. split.
  - unfold recv_all. rewrite recv_all_loop_eq.
    destruct (Z.ltb_spec 0 size); [lia | reflexivity].
  - unfold send_all. rewrite send_all_loop_eq. reflexivity.
Qed.

Lemma empty_transfers_skip_socket_witness :
  -3 <= 0 /\
  recv_all (snd (socket_close (connected [x01; x02] false [] []))) (-3)
  = (Done [], snd (socket_close (connected [x01; x02] false [] []))) /\
  send_all (snd (socket_close (connected [x01; x02] false [] []))) []
  = (Done tt, snd (socket_close (connected [x01; x02] false [] []))).
Proof.
  split; [lia|].
  apply (empty_transfers_skip_socket
           (snd (socket_close (connected [x01; x02] false [] []))) (-3)).
  lia.
Defined.

(** X2.  On connected sockets the outcome of [recv_all] depends on what
    the peer sent and on whether it has closed, not on how the transport
    cuts the stream into chunks: two sockets with the same incoming bytes
    and the same end-of-stream flag give the same outcome. *)
Theorem recv_all_ignores_fragmentation (s1 s2 : socket) (n : Z) :
  0 <= n ->
  sk_state s1 = Connected -> sk_state s2 = Connected ->
  sk_rx s1 = sk_rx s2 -> sk_rx_eof s1 = sk_rx_eof s2 ->
  fst (recv_all s1 n) = fst (recv_all s2 n).
Proof.
  intros Hn H1 H2 Hrx Heof.
  pose proof (recv_all_outcome s1 n Hn H1) as (_ & _ & O1).
  pose proof (recv_all_outcome s2 n Hn H2) as (_ & _ & O2).
  rewrite Hrx, Heof in O1.
  destruct (n <=? len (sk_rx s2)).
  - destruct O1 as [-> _]. destruct O2 as [-> _]. reflexivity.
  - congruence.
Qed.

Lemma recv_all_ignores_fragmentation_witness :
  0 <= 3 /\
  fst (recv_all (connected [x0a; x0b; x0c; x0d] false [1; 1; 1] []) 3)
  = fst (recv_all (connected [x0a; x0b; x0c; x0d] false [2] [7]) 3).
Proof.
  split; [lia|].
  apply (recv_all_ignores_fragmentation
           (connected [x0a; x0b; x0c; x0d] false [1; 1; 1] [])
           (connected [x0a; x0b; x0c; x0d] false [2] [7]) 3);
    [lia | reflexivity | reflexivity | reflexivity | reflexivity].
Defined.

(** X3.  When the peer has sent fewer than [n] bytes, [recv_all(sock, n)]
    on a connected socket raises the broken-connection [RuntimeError] if
    the peer has closed and waits forever if it has not; either way it
    has by then read everything the peer sent, so those bytes are gone
    from the stream. *)
Theorem recv_all_short_stream_drains (sock : socket) (n : Z) :
  sk_state sock = Connected ->
  len (sk_rx sock) < n ->
  fst (recv_all sock n)
  = (if sk_rx_eof sock then Raised broken_recv else Blocked) /\
  sk_rx (snd (recv_all sock n)) = [].
Proof.
  intros Hst Hshort.
  assert (Hn : 0 <= n) by (pose proof (len_nonneg (sk_rx sock)); lia).
  pose proof (recv_all_outcome sock n Hn Hst) as (_ & _ & Hout).
  destruct (Z.leb_spec n (len (sk_rx sock))); [lia|].
  split; [exact Hout|].
  destruct (recv_all sock n) as [r sock'] eqn:E.
  destruct (recv_all_spec sock n r sock' Hst E)
    as (calls & _ & _ & _ & _ & _ & _ & Hr).
  simpl in *. subst r.
  destruct (sk_rx_eof sock).
  - destruct Hr as (_ & _ & Hnil & _). exact Hnil.
  - destruct Hr as (_ & Hnil & _). exact Hnil.
Qed.

Lemma recv_all_short_stream_drains_witness :
  sk_state (connected [x0a; x0b] true [1] []) = Connected /\
  len (sk_rx (connected [x0a; x0b] true [1] [])) < 5 /\
  fst (recv_all (connected [x0a; x0b] true [1] []) 5)
  = (if sk_rx_eof (connected [x0a; x0b] true [1] [])
     then Raised broken_recv else Blocked) /\
  sk_rx (snd (recv_all (connected [x0a; x0b] true [1] []) 5)) = [].
Proof.
  split; [reflexivity|]. split; [vm_compute; reflexivity|].
  apply (recv_all_short_stream_drains (connected [x0a; x0b] true [1] []) 5).
  - reflexivity.
  - vm_compute; reflexivity.
Defined.

Lemma recv_all_loop_count n :
  forall sock size chunks recd buf sock',
    (Z.to_nat (size - recd) <= n)%nat ->
    sk_state sock = Connected ->
    recv_all_loop sock size chunks recd = (Done buf, sock') ->
    Z.max 0 (size - recd) <= 2048 * calls_made sock sock' /\
    calls_made sock sock' <= Z.max 0 (size - recd).
Proof.
  unfold calls_made.
  induction n as [|n IH]; intros sock size chunks recd buf sock' Hn Hst;
    rewrite recv_all_loop_eq; destruct (Z.ltb_spec recd size) as [Hlt|Hge];
    try lia.
  1, 3: intros E; inversion E; subst; lia.
  pose proof (socket_recv_step sock (Z.min (size - recd) 2048) Hst
                ltac:(lia)) as Hstep.
  destruct (socket_recv sock (Z.min (size - recd) 2048)) as [[chunk| |] s1];
    [|contradiction|discriminate].
  destruct Hstep as (Hst1 & _ & _ & Hlog1 & _ & Hlen1 & _).
  destruct chunk as [|b chunk]; [discriminate|].
  intros E.
  assert (Hpos : 1 <= len (b :: chunk))
    by (unfold len; simpl List.length; lia).
  apply IH in E; [|lia|assumption].
  assert (H1 : forall ev : event, len [ev] = 1) by reflexivity.
  rewrite Hlog1, len_app, H1 in E.
  lia.
Qed.

(** X4.  When [recv_all(sock, n)] returns on a connected socket, it has
    issued at most [n] calls of [sock.recv] (each brought at least one
    byte) and at least [n / 2048] rounded up (none brought more than
    2048). *)
Theorem recv_all_call_count (sock : socket) (n : Z) (buf : bytes) :
  0 <= n -> sk_state sock = Connected ->
  fst (recv_all sock n) = Done buf ->
  n <= 2048 * calls_made sock (snd (recv_all sock n)) /\
  calls_made sock (snd (recv_all sock n)) <= n.
Proof.
  intros Hn Hst Hdone.
  destruct (recv_all sock n) as [r sock'] eqn:E.
  cbn [fst snd] in *. subst r.
  unfold recv_all in E.
  apply (recv_all_loop_count (Z.to_nat (n - 0))) in E; [|lia|assumption].
  lia.
Qed.

Lemma recv_all_call_count_witness :
  0 <= 3 /\
  3 <= 2048 * calls_made (connected [x0a; x0b; x0c; x0d] false [1; 5] [])
             (snd (recv_all (connected [x0a; x0b; x0c; x0d] false [1; 5] []) 3)) /\
  calls_made (connected [x0a; x0b; x0c; x0d] false [1; 5] [])
    (snd (recv_all (connected [x0a; x0b; x0c; x0d] false [1; 5] []) 3)) <= 3.
Proof.
  split; [lia|].
  apply (recv_all_call_count
           (connected [x0a; x0b; x0c; x0d] false [1; 5] []) 3
           [x0a; x0b; x0c]);
    [lia | reflexivity | reflexivity].
Defined.

(** X5.  On a connected socket [send_all(sock, data)] never issues more
    than [len(data)] calls of [sock.send], whether it returns or raises,
    and at least one when [data] is not empty. *)
Theorem send_all_call_count (sock : socket) (data : bytes) :
  sk_state sock = Connected ->
  calls_made sock (snd (send_all sock data)) <= len data /\
  (data <> [] -> 1 <= calls_made sock (snd (send_all sock data))).
Proof.
  intros Hst. unfold calls_made.
  destruct (send_all sock data) as [r sock'] eqn:E. unfold send_all in E.
  apply (send_all_loop_spec (Z.to_nat (len data - 0))) in E;
    [|lia|pose proof (len_nonneg data); lia|assumption].
  destruct E as (calls & _ & _ & _ & _ & Hlog & _ & _ & Hnn & Hr).
  cbn [snd]. rewrite Hlog, len_app, len_send_events.
  assert (Hcount : len calls <= len data /\ (data <> [] -> 1 <= len calls)).
  { destruct r as [u|e|]; [| |contradiction].
    - destruct Hr as [Hsum Hall]. pose proof (taken_positive calls Hall).
      split; [lia|]. intros Hne.
      destruct calls; [|unfold len; simpl List.length; lia].
      change (taken []) with 0 in Hsum.
      destruct data; [congruence | unfold len in Hsum; simpl List.length in Hsum; lia].
    - destruct Hr as (_ & Hsum & calls0 & buf & -> & Hall).
      pose proof (taken_positive calls0 Hall).
      rewrite taken_app in Hsum.
      change (taken [(buf, 0)]) with 0 in Hsum.
      rewrite len_app. change (len [(buf, 0)]) with 1.
      pose proof (len_nonneg calls0). split; [lia | intros _; lia]. }
  destruct Hcount as [Hle Hge].
  split; [lia | intros Hne; specialize (Hge Hne); lia].
Qed.

Lemma send_all_call_count_witness :
  sk_state (connected [] false [] [2; 0]) = Connected /\
  calls_made (connected [] false [] [2; 0])
    (snd (send_all (connected [] false [] [2; 0]) [x01; x02; x03]))
  <= len [x01; x02; x03] /\
  ([x01; x02; x03] <> [] ->
   1 <= calls_made (connected [] false [] [2; 0])
          (snd (send_all (connected [] false [] [2; 0]) [x01; x02; x03]))).
Proof.
  split; [reflexivity|].
  apply (send_all_call_count (connected [] false [] [2; 0]) [x01; x02; x03]).
  reflexivity.
Defined.

(** X6.  The two directions of a connected socket do not disturb each
    other: [send_all] leaves the incoming bytes, the end-of-stream flag
    and the socket's state as they were, and [recv_all] leaves the bytes
    taken by the transport as they were. *)
Theorem transfers_keep_other_direction (sock : socket) (data : bytes) (n : Z) :
  sk_state sock = Connected ->
  (sk_rx (snd (send_all sock data)) = sk_rx sock /\
   sk_rx_eof (snd (send_all sock data)) = sk_rx_eof sock /\
   sk_state (snd (send_all sock data)) = Connected) /\
  (sk_tx (snd (recv_all sock n)) = sk_tx sock /\
   sk_state (snd (recv_all sock n)) = Connected).
Proof.
  intros Hst. split.
  - destruct (send_all sock data) as [r sock'] eqn:E. unfold send_all in E.
    apply (send_all_loop_spec (Z.to_nat (len data - 0))) in E;
      [|lia|pose proof (len_nonneg data); lia|assumption].
    destruct E as (calls & Hst' & Hrx & Heof & _). simpl. auto.
  - destruct (recv_all sock n) as [r sock'] eqn:E.
    destruct (recv_all_spec sock n r sock' Hst E)
      as (calls & Hst' & _ & Htx & _). simpl. auto.
Qed.

Lemma transfers_keep_other_direction_witness :
  sk_state (connected [x0a; x0b] false [1] [1]) = Connected /\
  (sk_rx (snd (send_all (connected [x0a; x0b] false [1] [1]) [x01; x02]))
   = sk_rx (connected [x0a; x0b] false [1] [1]) /\
   sk_rx_eof (snd (send_all (connected [x0a; x0b] false [1] [1]) [x01; x02]))
   = sk_rx_eof (connected [x0a; x0b] false [1] [1]) /\
   sk_state (snd (send_all (connected [x0a; x0b] false [1] [1]) [x01; x02]))
   = Connected) /\
  (sk_tx (snd (recv_all (connected [x0a; x0b] false [1] [1]) 2))
   = sk_tx (connected [x0a; x0b] false [1] [1]) /\
   sk_state (snd (recv_all (connected [x0a; x0b] false [1] [1]) 2))
   = Connected).
Proof.
  split; [reflexivity|].
  apply (transfers_keep_other_direction
           (connected [x0a; x0b] false [1] [1]) [x01; x02] 2).
  reflexivity.
Defined.

(** * Beyond the claims: frames in sequence *)

Lemma socket_send_plan (P : Z -> Prop) s d :
  Forall P (sk_tx_plan s) -> Forall P (sk_tx_plan (snd (socket_send s d))).
Proof.
  intros H. unfold socket_send. destruct (sk_state s); simpl; try assumption.
  destruct (sk_tx_plan s); simpl; [constructor | inversion H; assumption].
Qed.

Lemma send_all_loop_plan (P : Z -> Prop) sock data length total :
  Forall P (sk_tx_plan sock) ->
  Forall P (sk_tx_plan (snd (send_all_loop sock data length total))).
Proof.
  funelim (send_all_loop sock data length total); simpl; intros HP;
    try assumption;
    match goal with
    | E : socket_send ?s ?d = (_, ?s') |- _ =>
        let R := fresh "R" in
        pose proof (socket_send_plan P s d HP) as R; rewrite E in R; simpl in R
    end; auto.
Qed.

Lemma chan_with_stream_twice ch c1 c2 :
  chan_with_stream (chan_with_stream ch c1) c2 = chan_with_stream ch c2.
Proof. destruct ch as [[h p b w s cn a]|[h p w s]]; reflexivity. Qed.

Lemma len_frame w m : 0 <= w -> len (frame w m) = w + len m.
Proof.
  intros Hw. unfold frame. rewrite len_app. unfold len at 1.
  rewrite length_be_bytes. lia.
Qed.

(** A [send] that goes through, with the socket it leaves behind. *)
Lemma chan_send_frame ch c m :
  chan_stream ch = Some c -> sk_state c = Connected ->
  Forall (fun q => 0 < q) (sk_tx_plan c) ->
  0 <= chan_prefix_size ch ->
  len m < 256 ^ chan_prefix_size ch ->
  exists c',
    chan_send ch m = (Done tt, chan_with_stream ch c') /\
    sk_state c' = Connected /\
    Forall (fun q => 0 < q) (sk_tx_plan c') /\
    sk_tx c' = sk_tx c ++ frame (chan_prefix_size ch) m /\
    sk_rx c' = sk_rx c /\
    sk_rx_eof c' = sk_rx_eof c.
Proof.
  intros Hc Hst Hplan Hw Hfit.
  destruct (int_to_bytes_fits (len m) (chan_prefix_size ch) Hw
              ltac:(pose proof (len_nonneg m); lia))
    as (prefix & Henc & _ & _ & Hdig).
  assert (Hframe : prefix ++ m = frame (chan_prefix_size ch) m)
    by (unfold frame; rewrite Hdig; reflexivity).
  exists (snd (send_all c (prefix ++ m))).
  assert (Hdone : fst (send_all c (prefix ++ m)) = Done tt).
  { unfold send_all.
    apply (send_all_loop_done (Z.to_nat (len (prefix ++ m) - 0)));
      try assumption; [lia | pose proof (len_nonneg (prefix ++ m)); lia]. }
  destruct (send_all_run c (prefix ++ m) Hst) as (calls & _ & _ & Htx).
  specialize (Htx Hdone).
  pose proof (send_all_loop_plan (fun q => 0 < q) c (prefix ++ m)
                (len (prefix ++ m)) 0 Hplan) as Hplan'.
  fold (send_all c (prefix ++ m)) in Hplan'.
  rewrite (chan_send_stream ch c m Hc), Henc.
  destruct (send_all c (prefix ++ m)) as [r c'] eqn:E.
  cbn [fst snd] in *. subst r.
  unfold send_all in E.
  apply (send_all_loop_spec (Z.to_nat (len (prefix ++ m) - 0))) in E;
    [|lia|pose proof (len_nonneg (prefix ++ m)); lia|assumption].
  destruct E as (calls' & Hst' & Hrx' & Heof' & _).
  rewrite <- Hframe. repeat split; assumption.
Qed.

(** A [recv] that finds a whole frame, with the socket it leaves behind. *)
Lemma chan_recv_frame ch c m rest :
  chan_stream ch = Some c -> sk_state c = Connected ->
  0 <= chan_prefix_size ch ->
  len m < 256 ^ chan_prefix_size ch ->
  sk_rx c = frame (chan_prefix_size ch) m ++ rest ->
  exists c',
    chan_recv ch = (Done m, chan_with_stream ch c') /\
    sk_state c' = Connected /\
    sk_rx c' = rest /\
    sk_rx_eof c' = sk_rx_eof c.
Proof.
  intros Hc Hst Hw Hfit Hrx.
  set (w := chan_prefix_size ch) in *.
  set (prefix := be_bytes (Z.to_nat w) (len m)).
  assert (Hrx' : sk_rx c = prefix ++ m ++ rest)
    by (rewrite Hrx; unfold frame; rewrite <- app_assoc; reflexivity).
  assert (Hk : Z.to_nat w = List.length prefix)
    by (unfold prefix; rewrite length_be_bytes; reflexivity).
  assert (Hdec : int_from_bytes prefix = len m).
  { unfold prefix. rewrite int_from_bytes_be_bytes, Z2Nat.id by lia.
    apply Z.mod_small. pose proof (len_nonneg m). lia. }
  rewrite (chan_recv_stream ch c Hc). fold w.
  pose proof (recv_all_outcome c w Hw Hst) as (Hst1 & Heof1 & Hout1).
  destruct (recv_all c w) as [r1 c1] eqn:E1. cbn [fst snd] in *.
  destruct (Z.leb_spec w (len (sk_rx c))) as [_|Hbad].
  2:{ rewrite Hrx', len_app in Hbad. unfold len at 1 in Hbad.
      pose proof (len_nonneg (m ++ rest)). lia. }
  destruct Hout1 as [-> Hrx1].
  rewrite Hrx', Hk, firstn_exact, Hdec.
  rewrite Hrx', Hk, skipn_exact in Hrx1.
  pose proof (recv_all_outcome c1 (len m) (len_nonneg m) Hst1)
    as (Hst2 & Heof2 & Hout2).
  destruct (recv_all c1 (len m)) as [r2 c2] eqn:E2. cbn [fst snd] in *.
  rewrite Hrx1 in Hout2.
  destruct (Z.leb_spec (len m) (len (m ++ rest))) as [_|Hbad].
  2:{ rewrite len_app in Hbad. pose proof (len_nonneg rest). lia. }
  destruct Hout2 as [-> Hrx2].
  assert (Hm : Z.to_nat (len m) = List.length m) by (unfold len; lia).
  rewrite Hm, firstn_exact. rewrite Hm, skipn_exact in Hrx2.
  exists c2. repeat split; try assumption. congruence.
Qed.

(** X7.  When the incoming stream of a connected endpoint starts with a
    whole frame, [recv] returns the message of that frame and leaves the
    stream at the first byte after it: nothing of what follows is read,
    and the socket stays connected. *)
Theorem recv_takes_one_frame (ch : channel) (c : socket) (m rest : bytes) :
  chan_stream ch = Some c -> sk_state c = Connected ->
  0 <= chan_prefix_size ch ->
  len m < 256 ^ chan_prefix_size ch ->
  sk_rx c = frame (chan_prefix_size ch) m ++ rest ->
  fst (chan_recv ch) = Done m /\
  exists c',
    chan_stream (snd (chan_recv ch)) = Some c' /\
    sk_state c' = Connected /\
    sk_rx c' = rest.
Proof.
  intros Hc Hst Hw Hfit Hrx.
  destruct (chan_recv_frame ch c m rest Hc Hst Hw Hfit Hrx)
    as (c' & -> & Hst' & Hrx' & _).
  split; [reflexivity|]. exists c'.
  cbn [snd]. rewrite chan_stream_with. auto.
Qed.

Lemma recv_takes_one_frame_witness :
  chan_stream
    (ClientSide (demo_client (connected [x02; x0a; x0b; x01; x0c] false [1] [])))
  = Some (connected [x02; x0a; x0b; x01; x0c] false [1] []) /\
  sk_rx (connected [x02; x0a; x0b; x01; x0c] false [1] [])
  = frame 1 [x0a; x0b] ++ [x01; x0c] /\
  fst (chan_recv
         (ClientSide
            (demo_client (connected [x02; x0a; x0b; x01; x0c] false [1] []))))
  = Done [x0a; x0b] /\
  exists c',
    chan_stream
      (snd (chan_recv
              (ClientSide
                 (demo_client
                    (connected [x02; x0a; x0b; x01; x0c] false [1] [])))))
    = Some c' /\
    sk_state c' = Connected /\
    sk_rx c' = [x01; x0c].
Proof.
  split; [reflexivity|]. split; [reflexivity|].
  apply (recv_takes_one_frame
           (ClientSide
              (demo_client (connected [x02; x0a; x0b; x01; x0c] false [1] [])))
           (connected [x02; x0a; x0b; x01; x0c] false [1] [])
           [x0a; x0b] [x01; x0c]).
  - reflexivity.
  - reflexivity.
  - simpl; lia.
  - vm_compute; reflexivity.
  - reflexivity.
Defined.

Lemma recv_many_frames (ms : list bytes) :
  forall ch c rest,
    chan_stream ch = Some c -> sk_state c = Connected ->
    0 <= chan_prefix_size ch ->
    Forall (fun m => len m < 256 ^ chan_prefix_size ch) ms ->
    sk_rx c = List.concat (map (frame (chan_prefix_size ch)) ms) ++ rest ->
    exists c',
      recv_many (List.length ms) ch = (Done ms, chan_with_stream ch c') /\
      sk_state c' = Connected /\
      sk_rx c' = rest.
Proof.
  induction ms as [|m ms IH]; intros ch c rest Hc Hst Hw Hfit Hrx.
  - exists c. simpl in *. unfold pure.
    rewrite (chan_with_stream_same ch c Hc). auto.
  - inversion Hfit as [|m' ms' Hm Hms]; subst.
    cbn [map List.concat] in Hrx. rewrite <- app_assoc in Hrx.
    destruct (chan_recv_frame ch c m _ Hc Hst Hw Hm Hrx)
      as (c1 & Hrecv & Hst1 & Hrx1 & _).
    destruct (IH (chan_with_stream ch c1) c1 rest
                (chan_stream_with ch c1) Hst1
                ltac:(rewrite chan_prefix_size_with; exact Hw)
                ltac:(rewrite chan_prefix_size_with; exact Hms)
                ltac:(rewrite chan_prefix_size_with; exact Hrx1))
      as (c' & Hmany & Hst' & Hrx').
    exists c'. cbn [List.length recv_many]. unfold bind at 1.
    rewrite Hrecv. unfold bind at 1. rewrite Hmany. unfold pure.
    rewrite chan_with_stream_twice. auto.
Qed.

(** X8.  When the incoming stream of a connected endpoint holds the
    frames of the messages [ms] one after the other, that many calls of
    [recv] return the messages in the order of their frames, each whole,
    and leave the stream at the first byte after the last frame. *)
Theorem recv_many_in_order (ch : channel) (c : socket)
  (ms : list bytes) (rest : bytes) :
  chan_stream ch = Some c -> sk_state c = Connected ->
  0 <= chan_prefix_size ch ->
  Forall (fun m => len m < 256 ^ chan_prefix_size ch) ms ->
  sk_rx c = List.concat (map (frame (chan_prefix_size ch)) ms) ++ rest ->
  fst (recv_many (List.length ms) ch) = Done ms /\
  exists c',
    chan_stream (snd (recv_many (List.length ms) ch)) = Some c' /\
    sk_rx c' = rest.
Proof.
  intros Hc Hst Hw Hfit Hrx.
  destruct (recv_many_frames ms ch c rest Hc Hst Hw Hfit Hrx)
    as (c' & -> & _ & Hrx').
  split; [reflexivity|]. exists c'. cbn [snd].
  rewrite chan_stream_with. auto.
Qed.

Lemma recv_many_in_order_witness :
  Forall (fun m => len m < 256 ^ 1) [[x0a; x0b]; []; [x0c]] /\
  fst (recv_many 3
         (ServerSide
            (demo_server
               (connected [x02; x0a; x0b; x00; x01; x0c; x07] false [1; 1] []))))
  = Done [[x0a; x0b]; []; [x0c]] /\
  exists c',
    chan_stream
      (snd (recv_many 3
              (ServerSide
                 (demo_server
                    (connected [x02; x0a; x0b; x00; x01; x0c; x07]
                               false [1; 1] [])))))
    = Some c' /\
    sk_rx c' = [x07].
Proof.
  assert (Hfit : Forall (fun m => len m < 256 ^ 1) [[x0a; x0b]; []; [x0c]])
    by (repeat constructor).
  split; [exact Hfit|].
  apply (recv_many_in_order
           (ServerSide
              (demo_server
                 (connected [x02; x0a; x0b; x00; x01; x0c; x07] false [1; 1] [])))
           (connected [x02; x0a; x0b; x00; x01; x0c; x07] false [1; 1] [])
           [[x0a; x0b]; []; [x0c]] [x07]).
  - reflexivity.
  - reflexivity.
  - simpl; lia.
  - exact Hfit.
  - reflexivity.
Defined.

Lemma send_many_frames (ms : list bytes) :
  forall ch c,
    chan_stream ch = Some c -> sk_state c = Connected ->
    Forall (fun q => 0 < q) (sk_tx_plan c) ->
    0 <= chan_prefix_size ch ->
    Forall (fun m => len m < 256 ^ chan_prefix_size ch) ms ->
    exists c',
      send_many ms ch = (Done tt, chan_with_stream ch c') /\
      sk_state c' = Connected /\
      sk_tx c' = sk_tx c ++ List.concat (map (frame (chan_prefix_size ch)) ms).
Proof.
  induction ms as [|m ms IH]; intros ch c Hc Hst Hplan Hw Hfit.
  - exists c. simpl. unfold pure. rewrite app_nil_r.
    rewrite (chan_with_stream_same ch c Hc). auto.
  - inversion Hfit as [|m' ms' Hm Hms]; subst.
    destruct (chan_send_frame ch c m Hc Hst Hplan Hw Hm)
      as (c1 & Hsend & Hst1 & Hplan1 & Htx1 & _).
    destruct (IH (chan_with_stream ch c1) c1
                (chan_stream_with ch c1) Hst1 Hplan1
                ltac:(rewrite chan_prefix_size_with; exact Hw)
                ltac:(rewrite chan_prefix_size_with; exact Hms))
      as (c' & Hmany & Hst' & Htx').
    exists c'. cbn [send_many map List.concat]. unfold bind.
    rewrite Hsend, Hmany, chan_with_stream_twice.
    rewrite chan_prefix_size_with in Htx'.
    rewrite Htx', Htx1, <- app_assoc. auto.
Qed.

(** X9.  On a connected endpoint whose transport takes at least one byte
    per call, sending the messages [ms] one after the other returns, and
    what the transport has taken is what it had before followed by the
    frames of the messages, in the order of the calls, with nothing
    between them. *)
Theorem send_many_on_wire (ch : channel) (c : socket) (ms : list bytes) :
  chan_stream ch = Some c -> sk_state c = Connected ->
  Forall (fun q => 0 < q) (sk_tx_plan c) ->
  0 <= chan_prefix_size ch ->
  Forall (fun m => len m < 256 ^ chan_prefix_size ch) ms ->
  fst (send_many ms ch) = Done tt /\
  exists c',
    chan_stream (snd (send_many ms ch)) = Some c' /\
    sk_tx c' = sk_tx c ++ List.concat (map (frame (chan_prefix_size ch)) ms).
Proof.
  intros Hc Hst Hplan Hw Hfit.
  destruct (send_many_frames ms ch c Hc Hst Hplan Hw Hfit)
    as (c' & -> & _ & Htx).
  split; [reflexivity|]. exists c'. cbn [snd].
  rewrite chan_stream_with. auto.
Qed.

Lemma send_many_on_wire_witness :
  Forall (fun q => 0 < q) (sk_tx_plan (connected [] false [] [2; 1; 3])) /\
  Forall (fun m => len m < 256 ^ 1) [[x0a; x0b]; []; [x0c]] /\
  fst (send_many [[x0a; x0b]; []; [x0c]]
         (ClientSide (demo_client (connected [] false [] [2; 1; 3]))))
  = Done tt /\
  exists c',
    chan_stream
      (snd (send_many [[x0a; x0b]; []; [x0c]]
              (ClientSide (demo_client (connected [] false [] [2; 1; 3])))))
    = Some c' /\
    sk_tx c'
    = sk_tx (connected [] false [] [2; 1; 3])
      ++ List.concat (map (frame 1) [[x0a; x0b]; []; [x0c]]).
Proof.
  assert (Hplan : Forall (fun q => 0 < q)
                         (sk_tx_plan (connected [] false [] [2; 1; 3])))
    by (repeat constructor).
  assert (Hfit : Forall (fun m => len m < 256 ^ 1) [[x0a; x0b]; []; [x0c]])
    by (repeat constructor).
  split; [exact Hplan|]. split; [exact Hfit|].
  apply (send_many_on_wire
           (ClientSide (demo_client (connected [] false [] [2; 1; 3])))
           (connected [] false [] [2; 1; 3])
           [[x0a; x0b]; []; [x0c]]).
  - reflexivity.
  - reflexivity.
  - exact Hplan.
  - simpl; lia.
  - exact Hfit.
Defined.

(** X10.  Two endpoints of either class share a connection and the same
    prefix width [W >= 0].  On a transport that takes at least one byte
    per call, sending the messages [ms] (each shorter than [256^W]) one
    after the other on one endpoint returns, and once those bytes have
    reached the other endpoint (which had nothing unread), as many calls
    of [recv] there return the same messages in the same order. *)
Theorem messages_arrive_in_order (a b : channel) (ca cb : socket)
  (ms : list bytes) :
  0 <= chan_prefix_size a ->
  chan_prefix_size b = chan_prefix_size a ->
  Forall (fun m => len m < 256 ^ chan_prefix_size a) ms ->
  chan_stream a = Some ca -> sk_state ca = Connected ->
  Forall (fun q => 0 < q) (sk_tx_plan ca) ->
  chan_stream b = Some cb -> sk_state cb = Connected -> sk_rx cb = [] ->
  exists ca',
    send_many ms a = (Done tt, chan_with_stream a ca') /\
    fst (recv_many (List.length ms)
           (chan_with_stream b (deliver (sent_since ca ca') cb)))
    = Done ms.
Proof.
  intros Hw Hwb Hfit Ha Hsta Hplan Hb Hstb Hrxb.
  destruct (send_many_frames ms a ca Ha Hsta Hplan Hw Hfit)
    as (ca' & Hsend & _ & Htx).
  exists ca'. split; [exact Hsend|].
  assert (Hwire : sent_since ca ca'
                  = List.concat (map (frame (chan_prefix_size a)) ms)).
  { unfold sent_since. rewrite Htx. apply skipn_exact. }
  rewrite Hwire.
  destruct (recv_many_frames ms
              (chan_with_stream b
                 (deliver (List.concat (map (frame (chan_prefix_size a)) ms)) cb))
              (deliver (List.concat (map (frame (chan_prefix_size a)) ms)) cb)
              [])
    as (c' & -> & _); try reflexivity.
  - apply chan_stream_with.
  - exact Hstb.
  - rewrite chan_prefix_size_with, Hwb. exact Hw.
  - rewrite chan_prefix_size_with, Hwb. exact Hfit.
  - rewrite chan_prefix_size_with, Hwb. simpl sk_rx. rewrite Hrxb, app_nil_r.
    reflexivity.
Qed.

Lemma messages_arrive_in_order_witness :
  Forall (fun m => len m < 256 ^ 1) [[x0a; x0b]; []; [x0c]] /\
  Forall (fun q => 0 < q) (sk_tx_plan (connected [] false [] [2; 1; 3])) /\
  exists ca',
    send_many [[x0a; x0b]; []; [x0c]]
      (ServerSide (demo_server (connected [] false [] [2; 1; 3])))
    = (Done tt,
       chan_with_stream
         (ServerSide (demo_server (connected [] false [] [2; 1; 3]))) ca') /\
    fst (recv_many (List.length [[x0a; x0b]; []; [x0c]])
           (chan_with_stream
              (ClientSide (demo_client (connected [] true [1; 4] [])))
              (deliver (sent_since (connected [] false [] [2; 1; 3]) ca')
                       (connected [] true [1; 4] []))))
    = Done [[x0a; x0b]; []; [x0c]].
Proof.
  assert (Hplan : Forall (fun q => 0 < q)
                         (sk_tx_plan (connected [] false [] [2; 1; 3])))
    by (repeat constructor).
  assert (Hfit : Forall (fun m => len m < 256 ^ 1) [[x0a; x0b]; []; [x0c]])
    by (repeat constructor).
  split; [exact Hfit|]. split; [exact Hplan|].
  apply (messages_arrive_in_order
           (ServerSide (demo_server (connected [] false [] [2; 1; 3])))
           (ClientSide (demo_client (connected [] true [1; 4] [])))
           (connected [] false [] [2; 1; 3])
           (connected [] true [1; 4] [])
           [[x0a; x0b]; []; [x0c]]);
    try reflexivity; try assumption.
  simpl; lia.
Defined.

(** * Beyond the claims: the prefix *)

Lemma byte_of_Z_of_byte x : byte_of_Z (Z_of_byte x) = x.
Proof.
  unfold byte_of_Z. pose proof (Z_of_byte_range x) as Hr.
  rewrite Z.mod_small by lia. unfold Z_of_byte.
  rewrite N2Z.id, Byte.of_to_N. reflexivity.
Qed.

Lemma be_bytes_int_from_bytes (b : bytes) :
  be_bytes (List.length b) (int_from_bytes b) = b.
Proof.
  induction b as [|x l IH] using rev_ind; [reflexivity|].
  rewrite length_app, Nat.add_1_r. cbn [be_bytes].
  rewrite int_from_bytes_snoc.
  pose proof (Z_of_byte_range x) as Hr.
  rewrite Z.div_add_l, Z.div_small, Z.add_0_r by lia.
  rewrite Z.add_comm, Z.mod_add, Z.mod_small by lia.
  rewrite IH, byte_of_Z_of_byte. reflexivity.
Qed.

(** X11.  The length that [recv] decodes from a prefix is one that
    [send] encodes to those very bytes: decoding any byte string and
    encoding the result on as many bytes gives the string back.  So
    every prefix announces a length, and two different prefixes of the
    same width never announce the same one. *)
Theorem prefix_decode_then_encode (b : bytes) :
  int_to_bytes (int_from_bytes b) (len b) = Done b /\
  (forall b', len b' = len b -> int_from_bytes b' = int_from_bytes b ->
              b' = b).
Proof.
  assert (Henc : forall x : bytes,
             int_to_bytes (int_from_bytes x) (len x) = Done x).
  { intros x. unfold int_to_bytes.
    pose proof (int_from_bytes_bound x) as Hb. pose proof (len_nonneg x).
    destruct (Z.ltb_spec (len x) 0); [lia|].
    destruct (Z.ltb_spec (int_from_bytes x) 0); [lia|].
    destruct (Z.ltb_spec (int_from_bytes x) (256 ^ len x)); [|lia].
    unfold len. rewrite Nat2Z.id, be_bytes_int_from_bytes. reflexivity. }
  split; [apply Henc|].
  intros b' Hlen Hval.
  pose proof (Henc b') as H'. rewrite Hlen, Hval, Henc in H'.
  inversion H'. reflexivity.
Qed.

Lemma firstn_be_bytes w :
  forall n k, (k <= w)%nat ->
    firstn k (be_bytes w n) = be_bytes k (n / 256 ^ Z.of_nat (w - k)).
Proof.
  induction w as [|w IH]; intros n k Hk.
  - replace k with 0%nat by lia. reflexivity.
  - destruct (Nat.eq_dec k (S w)) as [->|Hne].
    + rewrite firstn_all2 by (rewrite length_be_bytes; lia).
      rewrite Nat.sub_diag. change (256 ^ Z.of_nat 0) with 1.
      rewrite Z.div_1_r. reflexivity.
    + cbn [be_bytes]. rewrite firstn_app, length_be_bytes.
      replace (k - w)%nat with 0%nat by lia. cbn [firstn].
      rewrite app_nil_r, IH by lia.
      replace (S w - k)%nat with (S (w - k)) by lia.
      rewrite Nat2Z.inj_succ, Z.pow_succ_r by lia.
      assert (0 < 256 ^ Z.of_nat (w - k)) by (apply Z.pow_pos_nonneg; lia).
      rewrite Z.div_div by lia. reflexivity.
Qed.

(** X12.  A receiver whose prefix is narrower than the sender's does not
    notice: when the stream holds a frame written with [wa] prefix bytes
    and the receiver reads [W < wa] of them, then for every message
    shorter than [256^(wa - W)] its [recv] returns the empty message,
    whatever the message was, and raises nothing. *)
Theorem narrower_prefix_reads_empty (ch : channel) (c : socket)
  (wa : Z) (m rest : bytes) :
  chan_stream ch = Some c -> sk_state c = Connected ->
  0 <= chan_prefix_size ch < wa ->
  len m < 256 ^ (wa - chan_prefix_size ch) ->
  sk_rx c = frame wa m ++ rest ->
  fst (chan_recv ch) = Done [].
Proof.
  intros Hc Hst Hw Hsmall Hrx.
  rewrite (chan_recv_outcome ch c Hc Hst ltac:(lia)).
  set (w := chan_prefix_size ch) in *.
  pose proof (len_nonneg m) as Hm. pose proof (len_nonneg rest) as Hrest.
  assert (Hlen : len (sk_rx c) = wa + len m + len rest)
    by (rewrite Hrx, len_app, len_frame by lia; lia).
  destruct (Z.leb_spec w (len (sk_rx c))); [|lia].
  assert (Hprefix : firstn (Z.to_nat w) (sk_rx c)
                    = be_bytes (Z.to_nat w) 0).
  { rewrite Hrx. unfold frame. rewrite <- app_assoc, firstn_app.
    rewrite length_be_bytes.
    replace (Z.to_nat w - Z.to_nat wa)%nat with 0%nat by lia.
    cbn [firstn]. rewrite app_nil_r, firstn_be_bytes by lia.
    replace (Z.of_nat (Z.to_nat wa - Z.to_nat w)) with (wa - w) by lia.
    rewrite Z.div_small by lia. reflexivity. }
  rewrite Hprefix, int_from_bytes_be_bytes, Z.mod_0_l
    by (apply Z.pow_nonzero; lia).
  destruct (Z.leb_spec 0 (len (skipn (Z.to_nat w) (sk_rx c))));
    [reflexivity | pose proof (len_nonneg (skipn (Z.to_nat w) (sk_rx c))); lia].
Qed.

Lemma narrower_prefix_reads_empty_witness :
  sk_rx (connected [x00; x00; x00; x02; x0a; x0b] false [] [])
  = frame 4 [x0a; x0b] ++ [] /\
  0 <= chan_prefix_size
         (ClientSide
            (demo_client (connected [x00; x00; x00; x02; x0a; x0b] false [] [])))
    < 4 /\
  len [x0a; x0b]
  < 256 ^ (4 - chan_prefix_size
                 (ClientSide
                    (demo_client
                       (connected [x00; x00; x00; x02; x0a; x0b] false [] [])))) /\
  fst (chan_recv
         (ClientSide
            (demo_client (connected [x00; x00; x00; x02; x0a; x0b] false [] []))))
  = Done [].
Proof.
  assert (Hsmall : len [x0a; x0b]
                   < 256 ^ (4 - chan_prefix_size
                                  (ClientSide
                                     (demo_client
                                        (connected [x00; x00; x00; x02; x0a; x0b]
                                                   false [] [])))))
    by (vm_compute; reflexivity).
  split; [reflexivity|]. split; [simpl; lia|]. split; [exact Hsmall|].
  apply (narrower_prefix_reads_empty
           (ClientSide
              (demo_client (connected [x00; x00; x00; x02; x0a; x0b] false [] [])))
           (connected [x00; x00; x00; x02; x0a; x0b] false [] [])
           4 [x0a; x0b] []).
  - reflexivity.
  - reflexivity.
  - simpl; lia.
  - exact Hsmall.
  - reflexivity.
Defined.

(** X13.  While the peer keeps the connection open, [recv] on a stream
    that holds less than a whole frame (not even the prefix, or the
    prefix and less payload than it announces) neither returns nor
    raises: it waits. *)
Theorem recv_waits_on_open_stream (ch : channel) (c : socket) :
  chan_stream ch = Some c -> sk_state c = Connected ->
  0 <= chan_prefix_size ch ->
  sk_rx_eof c = false ->
  (len (sk_rx c) < chan_prefix_size ch -> fst (chan_recv ch) = Blocked) /\
  (forall prefix part,
      sk_rx c = prefix ++ part ->
      len prefix = chan_prefix_size ch ->
      len part < int_from_bytes prefix ->
      fst (chan_recv ch) = Blocked).
Proof.
  intros Hc Hst Hw Heof.
  pose proof (chan_recv_outcome ch c Hc Hst Hw) as Hout.
  set (w := chan_prefix_size ch) in *.
  split.
  - intros Hshort. rewrite Hout, Heof.
    destruct (Z.leb_spec w (len (sk_rx c))); [lia | reflexivity].
  - intros prefix part Hrx Hlen Hshort.
    assert (Hk : Z.to_nat w = List.length prefix) by (unfold len in Hlen; lia).
    rewrite Hout, Hrx, Hk, firstn_exact, skipn_exact, len_app, Heof.
    destruct (Z.leb_spec w (len prefix + len part));
      [|pose proof (len_nonneg part); lia].
    destruct (Z.leb_spec (int_from_bytes prefix) (len part)); [lia|].
    reflexivity.
Qed.

Lemma recv_waits_on_open_stream_witness :
  chan_stream (ServerSide (demo_server (connected [x03; x0a] false [] [])))
  = Some (connected [x03; x0a] false [] []) /\
  sk_rx_eof (connected [x03; x0a] false [] []) = false /\
  len [x0a] < int_from_bytes [x03] /\
  fst (chan_recv (ServerSide (demo_server (connected [x03; x0a] false [] []))))
  = Blocked.
Proof.
  assert (Hshort : len [x0a] < int_from_bytes [x03])
    by (vm_compute; reflexivity).
  split; [reflexivity|]. split; [reflexivity|]. split; [exact Hshort|].
  destruct (recv_waits_on_open_stream
              (ServerSide (demo_server (connected [x03; x0a] false [] [])))
              (connected [x03; x0a] false [] [])
              eq_refl eq_refl ltac:(simpl; lia) eq_refl) as [_ Hpart].
  apply (Hpart [x03] [x0a]); [reflexivity | reflexivity | exact Hshort].
Defined.

Lemma recv_all_nonpositive sock size :
  size <= 0 -> recv_all sock size = (Done [], sock).
Proof.
  intros Hsize. unfold recv_all. rewrite recv_all_loop_eq.
  destruct (Z.ltb_spec 0 size); [lia | reflexivity].
Qed.

(** X14.  The constructors take any integer as [prefix_size].  With a
    width of zero or less, [recv] returns the empty message at once,
    without a call on any socket, even on a closed endpoint or on a
    server that has no connection; with a width below zero that a C
    [ssize_t] holds (from [-2^63] on), every [send] raises the
    [ValueError] of [to_bytes] and sends nothing. *)
Theorem nonpositive_prefix_width (ch : channel) :
  chan_prefix_size ch <= 0 ->
  chan_recv ch = (Done [], ch) /\
  (- 2 ^ 63 <= chan_prefix_size ch < 0 ->
   forall m,
     chan_send ch m
     = (Raised (ValueError "length argument must be non-negative"), ch)).
Proof.
  intros Hw. split.
  - destruct ch as [[h p b w s [c|] a]|[h p w s]]; simpl in *.
    + unfold TCPServer.recv, bind, TCPServer.conn_recv_all, TCPServer.on_conn.
      simpl. rewrite (recv_all_nonpositive c w Hw). simpl.
      rewrite (recv_all_nonpositive c (int_from_bytes []));
        [reflexivity | cbn; lia].
    + unfold TCPServer.recv, bind, TCPServer.conn_recv_all, TCPServer.on_conn.
      simpl. destruct (Z.ltb_spec 0 w); [lia|]. reflexivity.
    + unfold TCPClient.recv, bind, TCPClient.on_sock. simpl.
      rewrite (recv_all_nonpositive s w Hw). simpl.
      rewrite (recv_all_nonpositive s (int_from_bytes []));
        [reflexivity | cbn; lia].
  - intros [_ Hneg] m.
    destruct ch as [[h p b w s cn a]|[h p w s]]; simpl in *.
    + unfold TCPServer.send, bind, pure, int_to_bytes. simpl.
      destruct (Z.ltb_spec w 0); [reflexivity | lia].
    + unfold TCPClient.send, bind, pure, int_to_bytes. simpl.
      destruct (Z.ltb_spec w 0); [reflexivity | lia].
Qed.

Lemma nonpositive_prefix_width_witness :
  chan_prefix_size
    (snd (chan_close
            (ClientSide (TCPClient.mk demo_host demo_port (-1)
                                      (connected [x0a] false [] []))))) <= 0 /\
  - 2 ^ 63
  <= chan_prefix_size
       (snd (chan_close
               (ClientSide (TCPClient.mk demo_host demo_port (-1)
                                         (connected [x0a] false [] []))))) < 0 /\
  chan_recv
    (snd (chan_close
            (ClientSide (TCPClient.mk demo_host demo_port (-1)
                                      (connected [x0a] false [] [])))))
  = (Done [],
     snd (chan_close
            (ClientSide (TCPClient.mk demo_host demo_port (-1)
                                      (connected [x0a] false [] []))))) /\
  chan_send
    (snd (chan_close
            (ClientSide (TCPClient.mk demo_host demo_port (-1)
                                      (connected [x0a] false [] []))))) [x01]
  = (Raised (ValueError "length argument must be non-negative"),
     snd (chan_close
            (ClientSide (TCPClient.mk demo_host demo_port (-1)
                                      (connected [x0a] false [] []))))).
Proof.
  destruct (nonpositive_prefix_width
              (snd (chan_close
                      (ClientSide (TCPClient.mk demo_host demo_port (-1)
                                                (connected [x0a] false [] [])))))
              ltac:(simpl; lia)) as [Hrecv Hsend].
  assert (Hrange : - 2 ^ 63
                   <= chan_prefix_size
                        (snd (chan_close
                                (ClientSide
                                   (TCPClient.mk demo_host demo_port (-1)
                                      (connected [x0a] false [] []))))) < 0)
    by (simpl chan_prefix_size; lia).
  split; [simpl; lia|]. split; [exact Hrange|]. split; [exact Hrecv|].
  apply Hsend. exact Hrange.
Defined.

(** * Beyond the claims: the server before and at [register] *)

(** X15.  On a server whose [conn] is still [None] (no [register] has
    returned), with a prefix width in [1,8], [recv] and every [send] of
    a message that fits the prefix raise [AttributeError], and the
    server is left as it was. *)
Theorem server_calls_before_register (self : TCPServer.t) :
  TCPServer.conn self = None ->
  1 <= TCPServer.prefix_size self <= 8 ->
  TCPServer.recv self
  = (Raised (AttributeError "'NoneType' object has no attribute 'recv'"),
     self) /\
  (forall m,
      len m < 256 ^ TCPServer.prefix_size self ->
      TCPServer.send self m
      = (Raised (AttributeError "'NoneType' object has no attribute 'send'"),
         self)).
Proof.
  intros Hc Hw. split.
  - unfold TCPServer.recv, bind, TCPServer.conn_recv_all, TCPServer.on_conn.
    rewrite Hc. destruct (Z.ltb_spec 0 (TCPServer.prefix_size self)); [|lia].
    reflexivity.
  - intros m Hfit.
    destruct (int_to_bytes_fits (len m) (TCPServer.prefix_size self)
                ltac:(lia) ltac:(pose proof (len_nonneg m); lia))
      as (prefix & Henc & Hlen & _).
    unfold TCPServer.send, bind, pure. rewrite Henc.
    unfold TCPServer.conn_send_all, TCPServer.on_conn. rewrite Hc.
    rewrite len_app. pose proof (len_nonneg m).
    destruct (Z.ltb_spec 0 (len prefix + len m)); [reflexivity | lia].
Qed.

Lemma server_calls_before_register_witness :
  TCPServer.conn (TCPServer.init demo_host demo_port None None) = None /\
  1 <= TCPServer.prefix_size (TCPServer.init demo_host demo_port None None)
    <= 8 /\
  len [x01; x02]
  < 256 ^ TCPServer.prefix_size (TCPServer.init demo_host demo_port None None) /\
  TCPServer.recv (TCPServer.init demo_host demo_port None None)
  = (Raised (AttributeError "'NoneType' object has no attribute 'recv'"),
     TCPServer.init demo_host demo_port None None) /\
  TCPServer.send (TCPServer.init demo_host demo_port None None) [x01; x02]
  = (Raised (AttributeError "'NoneType' object has no attribute 'send'"),
     TCPServer.init demo_host demo_port None None).
Proof.
  destruct (server_calls_before_register
              (TCPServer.init demo_host demo_port None None)
              eq_refl ltac:(simpl; lia)) as [Hrecv Hsend].
  assert (Hfit : len [x01; x02]
                 < 256 ^ TCPServer.prefix_size
                           (TCPServer.init demo_host demo_port None None))
    by (vm_compute; reflexivity).
  split; [reflexivity|]. split; [simpl; lia|]. split; [exact Hfit|].
  split; [exact Hrecv|].
  apply Hsend. exact Hfit.
Defined.

(** X16.  [register()] assigns [conn] and [addr] only when it returns.
    Whenever it returns, the listening socket has just been bound to
    [(host, port)], put to listen with the configured backlog and asked
    for one connection, in that order; [conn] is the connected socket
    that [accept] handed out, on which nothing was sent yet, [addr] is
    the address of its peer, and host, port, backlog and prefix width are
    untouched.  Whenever it does not return (it raises or it waits),
    [conn], [addr] and the prefix width are as they were. *)
Theorem register_assigns_on_return (self : TCPServer.t) :
  (forall self1,
      TCPServer.register self = (Done tt, self1) ->
      exists c a,
        TCPServer.conn self1 = Some c /\
        TCPServer.addr self1 = Some a /\
        sk_state c = Connected /\
        sk_remote c = Some a /\
        sk_tx c = [] /\
        TCPServer.host self1 = TCPServer.host self /\
        TCPServer.port self1 = TCPServer.port self /\
        TCPServer.backlog self1 = TCPServer.backlog self /\
        TCPServer.prefix_size self1 = TCPServer.prefix_size self /\
        sk_log (TCPServer.sock self1)
        = sk_log (TCPServer.sock self)
          ++ [EvBind (TCPServer.host self, TCPServer.port self);
              EvListen (TCPServer.backlog self);
              EvAccept a]) /\
  (fst (TCPServer.register self) <> Done tt ->
   TCPServer.conn (snd (TCPServer.register self)) = TCPServer.conn self /\
   TCPServer.addr (snd (TCPServer.register self)) = TCPServer.addr self /\
   TCPServer.prefix_size (snd (TCPServer.register self))
   = TCPServer.prefix_size self).
Proof.
  unfold TCPServer.register, bind, TCPServer.on_sock, socket_bind.
  destruct (sk_state (TCPServer.sock self)) eqn:Es; simpl;
    try (split; [intros self1 H; discriminate H | intros _; auto]).
  unfold socket_listen; simpl. unfold socket_accept; simpl.
  destruct (sk_pending (TCPServer.sock self)) as [|p rest] eqn:Ep; simpl.
  - split; [intros self1 H; discriminate H | intros _; auto].
  - split.
    + intros self1 H. inversion H; subst; clear H. simpl.
      eexists _, (p_addr p).
      rewrite <- !app_assoc. repeat split; reflexivity.
    + intros H. exfalso. apply H. reflexivity.
Qed.

Lemma register_assigns_on_return_witness :
  TCPServer.register awaited_server = (Done tt, registered_server) /\
  (exists c a,
      TCPServer.conn registered_server = Some c /\
      TCPServer.addr registered_server = Some a /\
      sk_state c = Connected /\
      sk_remote c = Some a /\
      sk_tx c = [] /\
      TCPServer.host registered_server = TCPServer.host awaited_server /\
      TCPServer.port registered_server = TCPServer.port awaited_server /\
      TCPServer.backlog registered_server = TCPServer.backlog awaited_server /\
      TCPServer.prefix_size registered_server
      = TCPServer.prefix_size awaited_server /\
      sk_log (TCPServer.sock registered_server)
      = sk_log (TCPServer.sock awaited_server)
        ++ [EvBind (TCPServer.host awaited_server,
                    TCPServer.port awaited_server);
            EvListen (TCPServer.backlog awaited_server);
            EvAccept a]) /\
  fst (TCPServer.register registered_server) <> Done tt /\
  TCPServer.conn (snd (TCPServer.register registered_server))
  = TCPServer.conn registered_server /\
  TCPServer.addr (snd (TCPServer.register registered_server))
  = TCPServer.addr registered_server /\
  TCPServer.prefix_size (snd (TCPServer.register registered_server))
  = TCPServer.prefix_size registered_server.
Proof.
  assert (Hfail : fst (TCPServer.register registered_server) <> Done tt)
    by (vm_compute; discriminate).
  destruct (register_assigns_on_return awaited_server) as [Hret _].
  destruct (register_assigns_on_return registered_server) as [_ Hnot].
  split; [reflexivity|]. split; [exact (Hret registered_server eq_refl)|].
  split; [exact Hfail | exact (Hnot Hfail)].
Defined.

(** * Beyond the claims: the tensor helpers *)

Lemma chan_send_tensor_some {tensor : Type} (T : torch_module tensor) ch t :
  chan_send_tensor (Some T) ch t =
  (lift_outcome (fst (chan_send ch (torch_save T t))),
   snd (chan_send ch (torch_save T t))).
Proof.
  destruct ch as [s|c]; simpl.
  - destruct (TCPServer.send s (torch_save T t)); reflexivity.
  - destruct (TCPClient.send c (torch_save T t)); reflexivity.
Qed.

Lemma chan_recv_tensor_some {tensor : Type} (T : torch_module tensor) ch :
  chan_recv_tensor (Some T) ch =
  (match fst (chan_recv ch) with
   | Done raw => match torch_load T raw with
                 | Some v => PyDone v
                 | None => PyRaised TorchError
                 end
   | Raised e => PyRaised (Exn e)
   | Blocked => PyBlocked
   end,
   snd (chan_recv ch)).
Proof.
  destruct ch as [s|c]; simpl.
  - destruct (TCPServer.recv s) as [[raw|e|] s']; reflexivity.
  - destruct (TCPClient.recv c) as [[raw|e|] c']; reflexivity.
Qed.

(** X17.  Two endpoints of either class share a connection and the same
    prefix width [W >= 0], and [torch] is there on both sides.  For a
    tensor whose saved bytes are fewer than [256^W] and load back as the
    tensor, on a transport that takes at least one byte per call,
    [send_tensor] returns, and once its bytes have reached the other
    endpoint (which had nothing unread), [recv_tensor] there returns the
    tensor. *)
Theorem tensor_roundtrip {tensor : Type} (T : torch_module tensor)
  (a b : channel) (ca cb : socket) (t : tensor) :
  0 <= chan_prefix_size a ->
  chan_prefix_size b = chan_prefix_size a ->
  len (torch_save T t) < 256 ^ chan_prefix_size a ->
  torch_load T (torch_save T t) = Some t ->
  chan_stream a = Some ca -> sk_state ca = Connected ->
  Forall (fun q => 0 < q) (sk_tx_plan ca) ->
  chan_stream b = Some cb -> sk_state cb = Connected -> sk_rx cb = [] ->
  exists ca',
    chan_send_tensor (Some T) a t = (PyDone tt, chan_with_stream a ca') /\
    fst (chan_recv_tensor (Some T)
           (chan_with_stream b (deliver (sent_since ca ca') cb)))
    = PyDone t.
Proof.
  intros Hw Hwb Hfit Hcodec Ha Hsta Hplan Hb Hstb Hrxb.
  destruct (chan_send_frame a ca (torch_save T t) Ha Hsta Hplan Hw Hfit)
    as (ca' & Hsend & _ & _ & Htx & _).
  exists ca'. split.
  - rewrite chan_send_tensor_some, Hsend. reflexivity.
  - assert (Hwire : sent_since ca ca'
                    = frame (chan_prefix_size a) (torch_save T t)).
    { unfold sent_since. rewrite Htx. apply skipn_exact. }
    rewrite Hwire, chan_recv_tensor_some.
    destruct (chan_recv_frame
                (chan_with_stream b
                   (deliver (frame (chan_prefix_size a) (torch_save T t)) cb))
                (deliver (frame (chan_prefix_size a) (torch_save T t)) cb)
                (torch_save T t) [])
      as (c' & -> & _).
    + apply chan_stream_with.
    + exact Hstb.
    + rewrite chan_prefix_size_with, Hwb. exact Hw.
    + rewrite chan_prefix_size_with, Hwb. exact Hfit.
    + rewrite chan_prefix_size_with, Hwb. simpl sk_rx.
      rewrite Hrxb, app_nil_r. reflexivity.
    + cbn [fst]. rewrite Hcodec. reflexivity.
Qed.

Lemma tensor_roundtrip_witness :
  len (torch_save tagged_codec [x0a; x0b]) < 256 ^ 1 /\
  torch_load tagged_codec (torch_save tagged_codec [x0a; x0b])
  = Some [x0a; x0b] /\
  Forall (fun q => 0 < q) (sk_tx_plan (connected [] false [] [1; 2])) /\
  exists ca',
    chan_send_tensor (Some tagged_codec)
      (ClientSide (demo_client (connected [] false [] [1; 2]))) [x0a; x0b]
    = (PyDone tt,
       chan_with_stream
         (ClientSide (demo_client (connected [] false [] [1; 2]))) ca') /\
    fst (chan_recv_tensor (Some tagged_codec)
           (chan_with_stream
              (ServerSide (demo_server (connected [] false [2] [])))
              (deliver (sent_since (connected [] false [] [1; 2]) ca')
                       (connected [] false [2] []))))
    = PyDone [x0a; x0b].
Proof.
  assert (Hfit : len (torch_save tagged_codec [x0a; x0b]) < 256 ^ 1)
    by (vm_compute; reflexivity).
  assert (Hplan : Forall (fun q => 0 < q)
                         (sk_tx_plan (connected [] false [] [1; 2])))
    by (repeat constructor).
  split; [exact Hfit|]. split; [reflexivity|]. split; [exact Hplan|].
  apply (tensor_roundtrip tagged_codec
           (ClientSide (demo_client (connected [] false [] [1; 2])))
           (ServerSide (demo_server (connected [] false [2] [])))
           (connected [] false [] [1; 2])
           (connected [] false [2] [])
           [x0a; x0b]);
    try reflexivity; try assumption.
  simpl; lia.
Defined.

(** X18.  With [torch] there, [send_tensor] of a tensor whose saved
    bytes do not fit the prefix (at least [256^prefix_size] of them, so
    256 with the default width) raises the [OverflowError] of
    [to_bytes] and leaves the endpoint as it was: nothing is sent. *)
Theorem send_tensor_too_large {tensor : Type} (T : torch_module tensor)
  (ch : channel) (t : tensor) :
  0 <= chan_prefix_size ch ->
  256 ^ chan_prefix_size ch <= len (torch_save T t) ->
  chan_send_tensor (Some T) ch t
  = (PyRaised (Exn (OverflowError "int too big to convert")), ch).
Proof.
  intros Hw Hbig. rewrite chan_send_tensor_some.
  assert (E : chan_send ch (torch_save T t)
              = (Raised (OverflowError "int too big to convert"), ch)).
  { destruct ch as [s|c]; simpl in *.
    - unfold TCPServer.send, bind, pure.
      rewrite (int_to_bytes_overflow _ _ Hw Hbig). reflexivity.
    - unfold TCPClient.send, bind, pure.
      rewrite (int_to_bytes_overflow _ _ Hw Hbig). reflexivity. }
  rewrite E. reflexivity.
Qed.

Lemma send_tensor_too_large_witness :
  0 <= chan_prefix_size
         (ClientSide (TCPClient.init demo_host demo_port None)) /\
  256 ^ chan_prefix_size (ClientSide (TCPClient.init demo_host demo_port None))
  <= len (torch_save tagged_codec (repeat x00 255)) /\
  chan_send_tensor (Some tagged_codec)
    (ClientSide (TCPClient.init demo_host demo_port None)) (repeat x00 255)
  = (PyRaised (Exn (OverflowError "int too big to convert")),
     ClientSide (TCPClient.init demo_host demo_port None)).
Proof.
  split; [simpl; lia|]. split; [vm_compute; discriminate|].
  apply (send_tensor_too_large tagged_codec
           (ClientSide (TCPClient.init demo_host demo_port None))
           (repeat x00 255)).
  - simpl; lia.
  - vm_compute; discriminate.
Defined.

(** Without [torch] the four helpers raise [ImportError] before they
    look at the endpoint. *)
Example tensor_helpers_without_torch :
  forall (ch : channel) (t : bytes),
    fst (chan_send_tensor None ch t)
    = PyRaised (ImportError "torch 未安装，无法发送 tensor") /\
    snd (chan_send_tensor None ch t) = ch /\
    fst (chan_recv_tensor (tensor := bytes) None ch)
    = PyRaised (ImportError "torch 未安装，无法接收 tensor") /\
    snd (chan_recv_tensor (tensor := bytes) None ch) = ch.
Proof. intros [s|c] t; repeat split; reflexivity. Qed.

(** * Beyond the claims: closing *)

Lemma socket_close_done s : fst (socket_close s) = Done tt.
Proof. unfold socket_close. destruct (sk_state s); reflexivity. Qed.

Lemma server_close_eq h p b w s cn a :
  TCPServer.close (TCPServer.mk h p b w s cn a) =
  (Done tt,
   TCPServer.mk h p b w (snd (socket_close s))
                (option_map (fun c => snd (socket_close c)) cn) a).
Proof.
  unfold TCPServer.close, bind, pure, TCPServer.on_conn, TCPServer.on_sock.
  destruct cn as [c|]; simpl.
  - pose proof (socket_close_done c) as Hc.
    destruct (socket_close c) as [rc c']. simpl in *. subst rc. simpl.
    pose proof (socket_close_done s) as Hs.
    destruct (socket_close s) as [rs s']. simpl in *. subst rs. reflexivity.
  - pose proof (socket_close_done s) as Hs.
    destruct (socket_close s) as [rs s']. simpl in *. subst rs. reflexivity.
Qed.

(** X19.  [close()] never raises, on either class and in any state
    (before [register], with a connection, after an earlier [close]):
    it returns with every socket of the endpoint closed, a server
    without a connection still has none, and a second [close()] changes
    nothing. *)
Theorem close_never_raises (s : TCPServer.t) (c : TCPClient.t) :
  (fst (TCPServer.close s) = Done tt /\
   sk_state (TCPServer.sock (snd (TCPServer.close s))) = Closed /\
   (forall k, TCPServer.conn (snd (TCPServer.close s)) = Some k ->
              sk_state k = Closed) /\
   (TCPServer.conn (snd (TCPServer.close s)) = None <->
    TCPServer.conn s = None) /\
   TCPServer.close (snd (TCPServer.close s))
   = (Done tt, snd (TCPServer.close s))) /\
  (fst (TCPClient.close c) = Done tt /\
   sk_state (TCPClient.sock (snd (TCPClient.close c))) = Closed /\
   TCPClient.close (snd (TCPClient.close c))
   = (Done tt, snd (TCPClient.close c))).
Proof.
  split.
  - destruct s as [h p b w sk cn a]. rewrite server_close_eq. cbn [fst snd].
    rewrite server_close_eq. cbn [TCPServer.sock TCPServer.conn].
    split; [reflexivity|]. split; [apply socket_close_state|].
    split; [|split].
    + intros k Hk. destruct cn as [c0|]; simpl in Hk; [|discriminate].
      inversion Hk. apply socket_close_state.
    + destruct cn; simpl; split; intros H; try discriminate; reflexivity.
    + rewrite (socket_close_closed _ (socket_close_state sk)). cbn [snd].
      destruct cn as [c0|]; simpl; [|reflexivity].
      rewrite (socket_close_closed _ (socket_close_state c0)). reflexivity.
  - destruct c as [h p w sk]. unfold TCPClient.close, TCPClient.on_sock.
    cbn [TCPClient.sock].
    pose proof (socket_close_done sk) as Hd.
    pose proof (socket_close_state sk) as Hst.
    destruct (socket_close sk) as [r sk']. cbn [fst snd] in *. subst r.
    cbn [TCPClient.sock TCPClient.set_sock TCPClient.host TCPClient.port
         TCPClient.prefix_size].
    rewrite (socket_close_closed sk' Hst). auto.
Qed.
